(** * ScamGuard: the scam signal analysis engine

    A shallow embedding of the two producers of [AnalysisResult] values,

    - the edge function [supabase/functions/analyze-scam/index.ts]
      (module [Edge]): request validation, the rule-based branch taken when
      no API key is configured, and the handling of the AI gateway's reply;
    - the client hook [useScamAnalysis] (module [Hook]): the client-side
      rule-based scorer [ruleBasedScamAnalysis] and the timer-driven
      scheduler built from [startAnalysis], [updateTranscript] and
      [stopAnalysis];

    followed by the properties of the specification, stated on these
    definitions.

    Conventions.  A JavaScript string is a sequence of UTF-16 code units; the
    model covers the strings whose code units are all below 256 and holds
    them as [string], one character per code unit.  On that domain
    [toLowerCase] and [trim] are the per-character functions written out in
    module [JS].  Display texts of the guidance tables are opaque to every
    function here and are kept as the bytes of the source file. *)

From Stdlib Require Import ZArith QArith List String Ascii Bool Lia.
From Stdlib Require Import DecimalNat DecimalString.
Import ListNotations.

Open Scope string_scope.
Open Scope Z_scope.

Set Warnings "-register-all".

(* ================================================================== *)
(** ** JavaScript primitives used by the sources *)
(* ================================================================== *)

(** The sum of a list of integers. *)
Definition total (zs : list Z) : Z := fold_right Z.add 0 zs.

Module JS.

(** [WhiteSpace] and [LineTerminator] code units below 256: TAB, LF, VT,
    FF, CR, SP and NBSP. *)
Definition is_ws (c : ascii) : bool :=
  let n := nat_of_ascii c in
  ((9 <=? n) && (n <=? 13) || (n =? 32) || (n =? 160))%nat.

(** [String.prototype.toLowerCase] on one code unit below 256: A-Z and the
    Latin-1 capitals U+00C0..U+00DE (the multiplication sign U+00D7
    excepted) move up by 32. *)
Definition lower_char (c : ascii) : ascii :=
  let n := nat_of_ascii c in
  if ((65 <=? n) && (n <=? 90)
      || (192 <=? n) && (n <=? 222) && negb (n =? 215))%nat
  then ascii_of_nat (n + 32) else c.

Fixpoint toLowerCase (s : string) : string :=
  match s with
  | EmptyString => EmptyString
  | String c s' => String (lower_char c) (toLowerCase s')
  end.

Fixpoint trimStart (s : string) : string :=
  match s with
  | EmptyString => EmptyString
  | String c s' => if is_ws c then trimStart s' else s
  end.

Fixpoint trimEnd (s : string) : string :=
  match s with
  | EmptyString => EmptyString
  | String c s' =>
      match trimEnd s' with
      | EmptyString => if is_ws c then EmptyString else String c EmptyString
      | r => String c r
      end
  end.

(** [String.prototype.trim] *)
Definition trim (s : string) : string := trimEnd (trimStart s).

(** [s.includes(kw)]: [kw] occurs in [s] at some position. *)
Fixpoint includes (s kw : string) : bool :=
  String.prefix kw s
  || match s with
     | EmptyString => false
     | String _ s' => includes s' kw
     end.

(** [s.split(sep)] for a non-empty separator: [skip] counts the code units
    of a separator occurrence still to be passed over. *)
Fixpoint split_go (sep : string) (skip : nat) (s : string) : list string :=
  match s with
  | EmptyString => [EmptyString]
  | String c s' =>
      match skip with
      | S k => split_go sep k s'
      | O =>
          if String.prefix sep s
          then EmptyString :: split_go sep (String.length sep - 1) s'
          else match split_go sep 0 s' with
               | h :: t => String c h :: t
               | [] => [String c EmptyString]
               end
      end
  end.

Definition split (s sep : string) : list string := split_go sep 0 s.

(** *** JSON values

    What [JSON.parse], [req.json()] and [response.json()] return.  A
    number is kept as the exact rational its literal denotes; an object
    as its properties in insertion order, each key once.  [undefined],
    which is not a JSON value, is the [None] of an [option JSValue]. *)
Inductive JSValue : Type :=
| JNull
| JBool (b : bool)
| JNum (q : Q)
| JStr (s : string)
| JArr (items : list JSValue)
| JObj (fields : list (string * JSValue)).

Fixpoint lookup (k : string) (fs : list (string * JSValue))
  : option JSValue :=
  match fs with
  | [] => None
  | (k', v) :: rest => if (k' =? k)%string then Some v else lookup k rest
  end.

(** Assignment to the property [k]: in place when it exists, appended
    otherwise. *)
Fixpoint set_field (k : string) (v : JSValue)
    (fs : list (string * JSValue)) : list (string * JSValue) :=
  match fs with
  | [] => [(k, v)]
  | (k', v') :: rest =>
      if (k' =? k)%string then (k, v) :: rest
      else (k', v') :: set_field k v rest
  end.

(** [v.k] on a value that is neither [null] nor [undefined], for the
    names the sources read ([transcript], [language], [choices],
    [message], [content], [indicators], [id]): none of them is found on
    a built-in prototype, so only an object's own property answers. *)
Definition prop (v : JSValue) (k : string) : option JSValue :=
  match v with
  | JObj fs => lookup k fs
  | _ => None
  end.

(** [v[0]] on a value that is neither [null] nor [undefined]. *)
Definition index0 (v : JSValue) : option JSValue :=
  match v with
  | JArr (x :: _) => Some x
  | JStr (String c _) => Some (JStr (String c EmptyString))
  | JObj fs => lookup "0" fs
  | _ => None
  end.

(** [ToBoolean] *)
Definition truthy (v : option JSValue) : bool :=
  match v with
  | None => false
  | Some JNull => false
  | Some (JBool b) => b
  | Some (JNum q) => negb (Qeq_bool q 0)
  | Some (JStr s) => negb (s =? "")%string
  | Some (JArr _) => true
  | Some (JObj _) => true
  end.

(** [v?.f]: [undefined] when [v] is [null] or [undefined]. *)
Definition opt_chain (v : option JSValue)
    (f : JSValue -> option JSValue) : option JSValue :=
  match v with
  | None => None
  | Some JNull => None
  | Some x => f x
  end.

(** *** A decoder of JSON texts

    The grammar of ECMA-404 over code units below 256: a [\u] escape
    naming a code unit above 00FF has no image in [string] and makes the
    decoder answer [None].  [None] stands for the [SyntaxError] of
    [JSON.parse].  The statements below that quantify over texts are
    proved for an arbitrary decoder; this one decodes the concrete
    texts. *)
Definition json_ws (c : ascii) : bool :=
  let n := nat_of_ascii c in
  ((n =? 32) || (n =? 9) || (n =? 10) || (n =? 13))%nat.

Fixpoint skip_ws (s : string) : string :=
  match s with
  | EmptyString => EmptyString
  | String c s' => if json_ws c then skip_ws s' else s
  end.

Definition digit (c : ascii) : option Z :=
  let n := nat_of_ascii c in
  if ((48 <=? n) && (n <=? 57))%nat then Some (Z.of_nat (n - 48)) else None.

Definition hex_digit (c : ascii) : option nat :=
  let n := nat_of_ascii c in
  if ((48 <=? n) && (n <=? 57))%nat then Some (n - 48)%nat
  else if ((65 <=? n) && (n <=? 70))%nat then Some (n - 55)%nat
  else if ((97 <=? n) && (n <=? 102))%nat then Some (n - 87)%nat
  else None.

(** The longest run of digits at the head of [s]: its value on top of
    [acc], how many there were, and the rest. *)
Fixpoint digits (s : string) (acc : Z) (count : nat) : Z * nat * string :=
  match s with
  | EmptyString => (acc, count, s)
  | String c s' =>
      match digit c with
      | Some d => digits s' (10 * acc + d) (S count)
      | None => (acc, count, s)
      end
  end.

Definition int_part (s : string) : option (Z * string) :=
  match s with
  | String c s' =>
      match digit c with
      | Some 0 => Some (0, s')
      | Some d => let '(v, _, r) := digits s' d 1 in Some (v, r)
      | None => None
      end
  | EmptyString => None
  end.

Definition frac_part (m : Z) (s : string) : option (Z * nat * string) :=
  match s with
  | String "." s' =>
      match digits s' m 0 with
      | (_, O, _) => None
      | (v, n, r) => Some (v, n, r)
      end
  | _ => Some (m, O, s)
  end.

Definition exp_part (s : string) : option (Z * string) :=
  match s with
  | String c s' =>
      if ((c =? "e") || (c =? "E"))%char then
        let '(sign, s'') :=
          match s' with
          | String "-" r => (-1, r)
          | String "+" r => (1, r)
          | _ => (1, s')
          end in
        match digits s'' 0 0 with
        | (_, O, _) => None
        | (v, _, r) => Some (sign * v, r)
        end
      else Some (0, s)
  | EmptyString => Some (0, s)
  end.

Definition scale (m e : Z) : Q :=
  if 0 <=? e then inject_Z (m * 10 ^ e)
  else Qmake m (Z.to_pos (10 ^ (- e))).

Definition number (s : string) : option (Q * string) :=
  let '(sign, s1) :=
    match s with
    | String "-" r => (-1, r)
    | _ => (1, s)
    end in
  match int_part s1 with
  | None => None
  | Some (i, s2) =>
      match frac_part i s2 with
      | None => None
      | Some (m, f, s3) =>
          match exp_part s3 with
          | None => None
          | Some (e, s4) => Some (scale (sign * m) (e - Z.of_nat f), s4)
          end
      end
  end.

Definition escape (c : ascii) : option ascii :=
  let n := nat_of_ascii c in
  if ((n =? 34) || (n =? 92) || (n =? 47))%nat then Some c
  else if (c =? "b")%char then Some (ascii_of_nat 8)
  else if (c =? "f")%char then Some (ascii_of_nat 12)
  else if (c =? "n")%char then Some (ascii_of_nat 10)
  else if (c =? "r")%char then Some (ascii_of_nat 13)
  else if (c =? "t")%char then Some (ascii_of_nat 9)
  else None.

Definition hex4 (a b c d : ascii) : option ascii :=
  match hex_digit a, hex_digit b, hex_digit c, hex_digit d with
  | Some 0%nat, Some 0%nat, Some h, Some l => Some (ascii_of_nat (16 * h + l))
  | _, _, _, _ => None
  end.

(** The characters of a string literal after its opening quote, up to
    the closing one. *)
Fixpoint string_body (s : string) : option (string * string) :=
  match s with
  | EmptyString => None
  | String c r =>
      if (nat_of_ascii c =? 34)%nat then Some (EmptyString, r)
      else if (nat_of_ascii c =? 92)%nat then
        match r with
        | String "u" (String h1 (String h2 (String h3 (String h4 r')))) =>
            match hex4 h1 h2 h3 h4, string_body r' with
            | Some x, Some (body, rest) => Some (String x body, rest)
            | _, _ => None
            end
        | String e r' =>
            match escape e, string_body r' with
            | Some x, Some (body, rest) => Some (String x body, rest)
            | _, _ => None
            end
        | EmptyString => None
        end
      else if (nat_of_ascii c <? 32)%nat then None
      else
        match string_body r with
        | Some (body, rest) => Some (String c body, rest)
        | None => None
        end
  end.

Fixpoint drop (n : nat) (s : string) : string :=
  match n, s with
  | O, _ => s
  | S k, String _ s' => drop k s'
  | S _, EmptyString => EmptyString
  end.

Fixpoint value (fuel : nat) (s : string) : option (JSValue * string) :=
  match fuel with
  | O => None
  | S f =>
      match skip_ws s with
      | EmptyString => None
      | String c r as s0 =>
          if (c =? "{")%char then
            match skip_ws r with
            | String "}" r' => Some (JObj [], r')
            | _ => members f r []
            end
          else if (c =? "[")%char then
            match skip_ws r with
            | String "]" r' => Some (JArr [], r')
            | _ => elements f r []
            end
          else if (nat_of_ascii c =? 34)%nat then
            match string_body r with
            | Some (str, r') => Some (JStr str, r')
            | None => None
            end
          else if String.prefix "true" s0 then Some (JBool true, drop 4 s0)
          else if String.prefix "false" s0 then Some (JBool false, drop 5 s0)
          else if String.prefix "null" s0 then Some (JNull, drop 4 s0)
          else
            match number s0 with
            | Some (q, r') => Some (JNum q, r')
            | None => None
            end
      end
  end

with elements (fuel : nat) (s : string) (acc : list JSValue)
  : option (JSValue * string) :=
  match fuel with
  | O => None
  | S f =>
      match value f s with
      | Some (v, r) =>
          match skip_ws r with
          | String "," r' => elements f r' (acc ++ [v])%list
          | String "]" r' => Some (JArr (acc ++ [v])%list, r')
          | _ => None
          end
      | None => None
      end
  end

with members (fuel : nat) (s : string) (acc : list (string * JSValue))
  : option (JSValue * string) :=
  match fuel with
  | O => None
  | S f =>
      match skip_ws s with
      | String c r =>
          if (nat_of_ascii c =? 34)%nat then
            match string_body r with
            | Some (k, r1) =>
                match skip_ws r1 with
                | String ":" r2 =>
                    match value f r2 with
                    | Some (v, r3) =>
                        match skip_ws r3 with
                        | String "," r4 => members f r4 (set_field k v acc)
                        | String "}" r4 => Some (JObj (set_field k v acc), r4)
                        | _ => None
                        end
                    | None => None
                    end
                | _ => None
                end
            | None => None
            end
          else None
      | EmptyString => None
      end
  end.

(** Every second call at the latest consumes a code unit, so twice the
    length of the text bounds the depth of the recursion. *)
Definition JSON_parse (s : string) : option JSValue :=
  match value (2 * String.length s + 2) s with
  | Some (v, r) =>
      match skip_ws r with
      | EmptyString => Some v
      | _ => None
      end
  | None => None
  end.

(** The example texts below are written with an apostrophe where JSON
    has its quotation mark; [dq] puts the quotation marks in. *)
Fixpoint dq (s : string) : string :=
  match s with
  | EmptyString => EmptyString
  | String c s' =>
      String (if (c =? "'")%char then ascii_of_nat 34 else c) (dq s')
  end.

(** A value thrown by a statement, as far as the handlers tell them
    apart: an [Error] built by the program with its message, or an
    exception of the platform (a [TypeError] on a property access, the
    [SyntaxError] of a decoder, a rejected [fetch]), whose message is the
    platform's. *)
Inductive Thrown : Type :=
| ErrorMsg (message : string)
| TypeError
| SyntaxError
| NetworkError.

Inductive Result (A : Type) : Type :=
| Ok (a : A)
| Throw (e : Thrown).
Arguments Ok {A} a.
Arguments Throw {A} e.

Definition bind {A B} (r : Result A) (k : A -> Result B) : Result B :=
  match r with
  | Ok a => k a
  | Throw e => Throw e
  end.

End JS.

Notation "x <- r ;; k" := (JS.bind r (fun x => k))
  (at level 61, r at next level, right associativity).

(* ================================================================== *)
(** ** The edge function: rule-based branch *)
(* ================================================================== *)

Module Edge.

Record ScamIndicator := mkIndicator {
  id : string;
  type : string;
  detected : bool;
  confidence : Q;
  evidence : option string
}.

Record AnalysisResult := mkResult {
  riskLevel : string;
  riskScore : Z;
  indicators : list ScamIndicator;
  guidance : list string
}.

Record PatternRule := mkRule {
  rule_id : string;
  keywords : list string;
  weight : Z
}.

Definition patterns : list PatternRule :=
  [ mkRule "impersonation"
      ["bank"; "bank se"; "from bank"; "rbi"; "government"; "police";
       "tax department"] 25;
    mkRule "otp_request"
      ["otp"; "share otp"; "otp batao"; "pin"; "cvv"; "password"] 30;
    mkRule "urgency"
      ["immediately"; "urgent"; "account blocked";
       "account will be blocked"; "act now"] 25;
    mkRule "authority" ["arrest"; "police"; "legal"; "case"; "fine"] 20;
    mkRule "money_request" ["transfer"; "upi"; "gift card"; "pay"] 25 ].

Definition indicatorTypes : list string :=
  ["impersonation"; "urgency"; "emotional"; "authority"; "otp_request";
   "money_request"; "voice_pattern"].

(** [patterns.find((p) => p.id === type)] *)
Definition find_pattern (ps : list PatternRule) (ty : string)
  : option PatternRule :=
  List.find (fun p => (rule_id p =? ty)%string) ps.

(** [keywords.some((kw) => text.includes(kw))] *)
Definition some_keyword (text : string) (kws : list string) : bool :=
  existsb (fun kw => JS.includes text kw) kws.

(** The callback of [indicatorTypes.map] updates the captured [riskScore];
    the accumulator is threaded through the traversal. *)
Fixpoint map_indicators (ps : list PatternRule) (text : string)
    (types : list string) (score : Z) : list ScamIndicator * Z :=
  match types with
  | [] => ([], score)
  | ty :: rest =>
      let pattern := find_pattern ps ty in
      let det :=
        match pattern with
        | Some p => some_keyword text (keywords p)
        | None => false
        end in
      let score' :=
        match pattern with
        | Some p => if det then score + weight p else score
        | None => score
        end in
      let '(inds, final) := map_indicators ps text rest score' in
      (mkIndicator ty ty det (if det then 85 # 100 else 0%Q) None :: inds,
       final)
  end.

(** The score before [Math.min(100, _)]. *)
Definition rawScore (text : string) : Z :=
  snd (map_indicators patterns text indicatorTypes 0).

Definition level_of (score : Z) : string :=
  if 50 <=? score then "high"
  else if 25 <=? score then "medium" else "low".

Definition guidance_of (level : string) : list string :=
  if (level =? "high")%string
  then ["HIGH RISK - Do not share OTP. End call immediately."]
  else if (level =? "medium")%string
  then ["Be cautious. Verify caller identity."]
  else ["Call appears safe."].

(** Lines 46-68, from the normalised [text]. *)
Definition ruleBased (text : string) : AnalysisResult :=
  let '(inds, sum) := map_indicators patterns text indicatorTypes 0 in
  let score := Z.min 100 sum in
  let level := level_of score in
  mkResult level
    (if (level =? "high")%string then Z.max score 75 else score)
    inds
    (guidance_of level).

(** What one turn of the traversal decides for [ty] and adds to the
    score. *)
Definition detects (ps : list PatternRule) (text ty : string) : bool :=
  match find_pattern ps ty with
  | Some p => some_keyword text (keywords p)
  | None => false
  end.

Definition contribution (ps : list PatternRule) (text ty : string) : Z :=
  match find_pattern ps ty with
  | Some p => if some_keyword text (keywords p) then weight p else 0
  | None => 0
  end.

Definition entry (ps : list PatternRule) (text ty : string) : ScamIndicator :=
  mkIndicator ty ty (detects ps text ty)
    (if detects ps text ty then 85 # 100 else 0%Q) None.

(** The ids flagged in a result, in the order of its [indicators]. *)
Definition detected_ids (r : AnalysisResult) : list string :=
  map id (filter detected (indicators r)).

(** Line 41. *)
Definition normalize (transcript : string) : string :=
  JS.trim (JS.toLowerCase transcript).

(** *** The request handler *)

Import JS.

Record Request := mkRequest {
  method : string;
  req_body : string
}.

(** What [fetch] settles to: a rejection, or a response with its status
    and its text. *)
Inductive FetchOutcome : Type :=
| FetchRejected
| FetchResponse (status : Z) (text : string).

(** The body handed to [new Response]: nothing, the value given to
    [JSON.stringify], or [{error: m}] where [m] is the platform's message
    for an exception the platform raised. *)
Inductive Body : Type :=
| NoBody
| Json (v : JSValue)
| PlatformError (e : Thrown).

Record Response := mkResponse {
  status : Z;
  body : Body
}.

(** The handler answers at once, or calls the AI gateway for
    [transcript] and [language] and goes on with what [fetch] gives. *)
Inductive Step : Type :=
| Done (r : Response)
| Fetch (transcript : string) (language : JSValue)
        (k : FetchOutcome -> Response).

Definition error_json (m : string) : Body :=
  Json (JObj [("error", JStr m)]).

(** [{ error: error instanceof Error ? error.message : 'Unknown error' }]:
    everything thrown here is an [Error]. *)
Definition error_body (e : Thrown) : Body :=
  match e with
  | ErrorMsg m => error_json m
  | _ => PlatformError e
  end.

(** The outer [try]/[catch] (lines 31 and 198-204). *)
Definition catch500 (r : Result Response) : Response :=
  match r with
  | Ok resp => resp
  | Throw e => mkResponse 500 (error_body e)
  end.

Definition indicator_json (i : ScamIndicator) : JSValue :=
  JObj ([("id", JStr (id i)); ("type", JStr (type i));
         ("detected", JBool (detected i));
         ("confidence", JNum (confidence i))]
        ++ match evidence i with
           | Some e => [("evidence", JStr e)]
           | None => []
           end)%list.

Definition result_json (r : AnalysisResult) : JSValue :=
  JObj [("riskLevel", JStr (riskLevel r));
        ("riskScore", JNum (inject_Z (riskScore r)));
        ("indicators", JArr (map indicator_json (indicators r)));
        ("guidance", JArr (map JStr (guidance r)))].

(** The safe defaults of lines 169-174. *)
Definition neutral_default : JSValue :=
  JObj [("riskLevel", JStr "medium");
        ("riskScore", JNum 50);
        ("indicators", JArr []);
        ("guidance", JArr [JStr "Unable to fully analyze. Please be cautious."])].

(** [{ id: type, type: type, detected: false, confidence: 0 }] *)
Definition backfill_entry (ty : string) : JSValue :=
  JObj [("id", JStr ty); ("type", JStr ty);
        ("detected", JBool false); ("confidence", JNum 0)].

(** [parts[n]] followed by a method call: a [TypeError] on [undefined]. *)
Definition part (parts : list string) (n : nat) : Result string :=
  match nth_error parts n with
  | Some p => Ok p
  | None => Throw TypeError
  end.

Definition fence_json : string := "```json".
Definition fence : string := "```".

(** Lines 159-164. *)
Definition extract_json (content : string) : Result string :=
  if includes content fence_json then
    p <- part (split content fence_json) 1 ;;
    q <- part (split p fence) 0 ;;
    Ok (trim q)
  else if includes content fence then
    p <- part (split content fence) 1 ;;
    q <- part (split p fence) 0 ;;
    Ok (trim q)
  else Ok content.

(** [existingIds.has(type)] on the ids collected by [map(i => i.id)]. *)
Definition has_id (ids : list (option JSValue)) (ty : string) : bool :=
  existsb (fun x => match x with
                    | Some (JStr s) => (s =? ty)%string
                    | _ => false
                    end) ids.

(** [i => i.id] throws on [null]. *)
Fixpoint map_ids (items : list JSValue) : Result (list (option JSValue)) :=
  match items with
  | [] => Ok []
  | i :: rest =>
      match i with
      | JNull => Throw TypeError
      | _ => ids <- map_ids rest ;; Ok (prop i "id" :: ids)
      end
  end.

(** The loop of lines 181-190 on the array [items]. *)
Definition push_missing (ids : list (option JSValue))
    (items : list JSValue) : list JSValue :=
  fold_left
    (fun acc ty =>
       if has_id ids ty then acc else (acc ++ [backfill_entry ty])%list)
    indicatorTypes items.

(** Lines 177-190: [analysis.indicators] must be an array for [map] to be
    callable; the array is extended in place. *)
Definition backfill (analysis : JSValue) : Result JSValue :=
  match analysis with
  | JObj fs =>
      match lookup "indicators" fs with
      | Some (JArr items) =>
          ids <- map_ids items ;;
          Ok (JObj (set_field "indicators" (JArr (push_missing ids items)) fs))
      | _ => Throw TypeError
      end
  | _ => Throw TypeError
  end.

(** [aiResponse.choices?.[0]?.message?.content] *)
Definition message_content (aiResponse : JSValue) : Result (option JSValue) :=
  match aiResponse with
  | JNull => Throw TypeError
  | _ =>
      Ok (opt_chain
            (opt_chain
               (opt_chain (prop aiResponse "choices") index0)
               (fun v => prop v "message"))
            (fun v => prop v "content"))
  end.

Definition decimal (z : Z) : string := NilZero.string_of_int (Z.to_int z).

Section Handler.

(** The platform's decoder, [None] for its [SyntaxError]. *)
Variable parse : string -> option JSValue.

Definition decode (s : string) : Result JSValue :=
  match parse s with
  | Some v => Ok v
  | None => Throw SyntaxError
  end.

(** Lines 156-175: the statements of the inner [try], then its [catch],
    which turns every exception into the safe defaults. *)
Definition decoded (content : string) : Result JSValue :=
  jsonStr <- extract_json content ;; decode jsonStr.

Definition parse_analysis (content : string) : JSValue :=
  match decoded content with
  | Ok v => v
  | Throw _ => neutral_default
  end.

(** Lines 146-197. *)
Definition on_ai_response (text : string) : Result Response :=
  aiResponse <- decode text ;;
  c <- message_content aiResponse ;;
  match c with
  | Some (JStr content) =>
      if (content =? "")%string
      then Throw (ErrorMsg "AI did not return analysis")
      else
        analysis <- backfill (parse_analysis content) ;;
        Ok (mkResponse 200 (Json analysis))
  | _ => Throw (ErrorMsg "AI did not return analysis")
  end.

(** Lines 127-197. *)
Definition after_fetch (outcome : FetchOutcome) : Result Response :=
  match outcome with
  | FetchRejected => Throw NetworkError
  | FetchResponse st text =>
      if (200 <=? st) && (st <=? 299) then on_ai_response text
      else if st =? 429 then
        Ok (mkResponse 429
              (error_json "Rate limit exceeded. Please try again in a moment."))
      else if st =? 402 then
        Ok (mkResponse 402
              (error_json "Usage limit reached. Please check your account."))
      else Throw (ErrorMsg ("AI gateway error: " ++ decimal st))
  end.

(** [const { transcript, language = 'en' } = await req.json()] *)
Definition destructure (v : JSValue)
  : Result (option JSValue * JSValue) :=
  match v with
  | JNull => Throw TypeError
  | _ =>
      Ok (prop v "transcript",
          match prop v "language" with
          | Some l => l
          | None => JStr "en"
          end)
  end.

(** Line 34: [None] when the request is to be refused, the transcript
    otherwise; [trim] is not callable on a truthy value that is not a
    string. *)
Definition provided (t : option JSValue) : Result (option string) :=
  if negb (truthy t) then Ok None
  else
    match t with
    | Some (JStr s) =>
        if (String.length (trim s) =? 0)%nat then Ok None else Ok (Some s)
    | _ => Throw TypeError
    end.

(** [!LOVABLE_API_KEY] *)
Definition no_key (key : option string) : bool :=
  match key with
  | None => true
  | Some k => (k =? "")%string
  end.

(** The handler given to [serve], with [LOVABLE_API_KEY] as [key]. *)
Definition serve (key : option string) (req : Request) : Step :=
  if (method req =? "OPTIONS")%string then Done (mkResponse 200 NoBody)
  else
    match (v <- decode (req_body req) ;;
           tl <- destructure v ;;
           t <- provided (fst tl) ;;
           Ok (t, snd tl)) with
    | Throw e => Done (mkResponse 500 (error_body e))
    | Ok (None, _) =>
        Done (mkResponse 400 (error_json "No transcript provided"))
    | Ok (Some transcript, language) =>
        let text := normalize transcript in
        if no_key key then
          Done (mkResponse 200 (Json (result_json (ruleBased text))))
        else
          Fetch transcript language
                (fun outcome => catch500 (after_fetch outcome))
    end.

(** The response to [req] when [fetch], if called, settles to
    [outcome]. *)
Definition respond (key : option string) (req : Request)
    (outcome : FetchOutcome) : Response :=
  match serve key req with
  | Done r => r
  | Fetch _ _ k => k outcome
  end.

End Handler.

(** *** Reading a response body *)

Definition body_prop (b : Body) (k : string) : option JSValue :=
  match b with
  | Json v => prop v k
  | _ => None
  end.

(** The [id] of every entry of the body's [indicators]. *)
Definition body_ids (b : Body) : list (option JSValue) :=
  match body_prop b "indicators" with
  | Some (JArr items) => map (fun i => prop i "id") items
  | _ => []
  end.

Definition canonical_ids : list (option JSValue) :=
  map (fun ty => Some (JStr ty)) indicatorTypes.

(** The canonical ids no entry of [items] carries, in canonical order. *)
Definition missing (items : list JSValue) : list string :=
  filter (fun ty => negb (has_id (map (fun i => prop i "id") items) ty))
         indicatorTypes.

(** The safe defaults once backfilled. *)
Definition neutral_result : JSValue :=
  JObj [("riskLevel", JStr "medium");
        ("riskScore", JNum 50);
        ("indicators", JArr (map backfill_entry indicatorTypes));
        ("guidance", JArr [JStr "Unable to fully analyze. Please be cautious."])].

(** The gateway answered in the 2xx range and [content] is the non-empty
    string the handler reads as the message of the first choice. *)
Definition message_of (parse : string -> option JSValue)
    (outcome : FetchOutcome) (content : string) : Prop :=
  exists st text ai,
    outcome = FetchResponse st text
    /\ 200 <= st <= 299
    /\ parse text = Some ai
    /\ message_content ai = Ok (Some (JStr content))
    /\ content <> "".

(** The shape of a completion carrying [content] as its message. *)
Definition completion (content : string) : JSValue :=
  JObj [("choices",
         JArr [JObj [("message", JObj [("content", JStr content)])]])].

End Edge.

(* ================================================================== *)
(** ** The client hook [useScamAnalysis] *)
(* ================================================================== *)

Module Hook.

(** Modelled from the spec: the type [RiskLevel] of [@/types], which is
    not among the sources; the specification gives its three values. *)
Inductive RiskLevel : Type := low | medium | high.

(** An entry of [scamPatterns]. *)
Record ScamPattern := mkPattern {
  pattern_id : string;
  pattern_type : string;
  pattern_label : string;
  pattern_description : string;
  pattern_severity : string
}.

(** Modelled from the spec: the type [ScamIndicator] of [@/types], with
    the properties the hook gives its values,
    [{ ...pattern, detected, confidence }]; the properties spread from a
    pattern are there when the pattern is. *)
Record ScamIndicator := mkIndicator {
  id : option string;
  type : option string;
  label : option string;
  description : option string;
  severity : option string;
  detected : bool;
  confidence : Q
}.

(** Modelled from the spec: the type [AnalysisResult] of [@/types],
    without its [timestamp], which is read from the clock. *)
Record AnalysisResult := mkResult {
  riskLevel : RiskLevel;
  riskScore : Z;
  indicators : list ScamIndicator;
  guidance : list string
}.

Definition scamPatterns : list ScamPattern :=
  [ mkPattern "impersonation" "impersonation" "Caller Impersonation"
      "Caller claims to be from bank, government, or trusted organization"
      "high";
    mkPattern "urgency" "urgency" "Urgency Pressure"
      (JS.dq "Creating false urgency - 'Act now or face consequences'")
      "high";
    mkPattern "emotional" "emotional" "Emotional Manipulation"
      "Using fear, excitement, or sympathy to manipulate" "medium";
    mkPattern "authority" "authority" "Authority Pressure"
      "Claiming legal authority or threatening arrest" "high";
    mkPattern "otp_request" "otp_request" "OTP Request"
      "Asking for OTP, PIN, or password" "high";
    mkPattern "money_request" "money_request" "Money Request"
      "Requesting money transfer or gift cards" "high";
    mkPattern "voice_pattern" "voice_pattern" "Suspicious Voice Pattern"
      "Unusual stress, pitch changes, or scripted speech" "medium" ].

Definition guidance_en (l : RiskLevel) : list string :=
  match l with
  | low =>
      ["✓ Call appears safe";
       "✓ No suspicious patterns detected";
       "✓ Continue with normal caution"]
  | medium =>
      ["⚠️ Be careful with this call";
       "⚠️ Do not share personal information yet";
       "⚠️ Verify the caller's identity independently";
       "⚠️ If unsure, hang up and call back using official numbers"]
  | high =>
      ["🚫 HIGH RISK - This could be a scam!";
       "🚫 DO NOT share any OTP or passwords";
       "🚫 DO NOT transfer any money";
       "🚫 End this call immediately";
       "🚫 Block this number";
       "📞 Contact your family or bank directly"]
  end.

Definition guidance_hi (l : RiskLevel) : list string :=
  match l with
  | low =>
      ["✓ कॉल सुरक्षित लगती है";
       "✓ कोई संदिग्ध पैटर्न नहीं मिला";
       "✓ सामान्य सावधानी के साथ जारी रखें"]
  | medium =>
      ["⚠️ इस कॉल में सावधान रहें";
       "⚠️ अभी व्यक्तिगत जानकारी साझा न करें";
       "⚠️ कॉलर की पहचान स्वतंत्र रूप से सत्यापित करें";
       "⚠️ अगर संदेह हो, फोन काटें और आधिकारिक नंबर से कॉल करें"]
  | high =>
      ["🚫 उच्च जोखिम - यह धोखाधड़ी हो सकती है!";
       "🚫 कोई भी OTP या पासवर्ड साझा न करें";
       "🚫 कोई पैसा ट्रांसफर न करें";
       "🚫 इस कॉल को तुरंत समाप्त करें";
       "🚫 इस नंबर को ब्लॉक करें";
       "📞 अपने परिवार या बैंक से सीधे संपर्क करें"]
  end.

Definition guidance_ta (l : RiskLevel) : list string :=
  match l with
  | low =>
      ["✓ அழைப்பு பாதுகாப்பானதாக தெரிகிறது";
       "✓ சந்தேகமான முறைகள் இல்லை";
       "✓ சாதாரண எச்சரிக்கையுடன் தொடரவும்"]
  | medium =>
      ["⚠️ இந்த அழைப்பில் கவனமாக இருங்கள்";
       "⚠️ இன்னும் தனிப்பட்ட தகவல்களைப் பகிர வேண்டாம்";
       "⚠️ அழைப்பாளரின் அடையாளத்தை சுயாதீனமாக சரிபார்க்கவும்"]
  | high =>
      ["🚫 அதிக ஆபத்து - இது மோசடியாக இருக்கலாம்!";
       "🚫 எந்த OTP அல்லது கடவுச்சொற்களையும் பகிர வேண்டாம்";
       "🚫 பணம் மாற்ற வேண்டாம்";
       "🚫 இந்த அழைப்பை உடனடியாக முடிக்கவும்"]
  end.

(** [guidance[lang]?.[riskLevel] || guidance.en[riskLevel]]: every array
    of the table is truthy, and no other name leads to one. *)
Definition getLocalizedGuidance (l : RiskLevel) (lang : string)
  : list string :=
  if (lang =? "en")%string then guidance_en l
  else if (lang =? "hi")%string then guidance_hi l
  else if (lang =? "ta")%string then guidance_ta l
  else guidance_en l.

Record PatternRule := mkRule {
  rule_id : string;
  keywords : list string;
  weight : Z
}.

Definition patterns : list PatternRule :=
  [ mkRule "impersonation"
      ["bank"; "bank se"; "from bank"; "rbi"; "government"; "police";
       "tax department"; "income tax"; "sbi"; "hdfc"; "icici"] 25;
    mkRule "otp_request"
      ["otp"; "share otp"; "otp batao"; "otp bhejo"; "pin"; "cvv";
       "password"; "verify code"] 30;
    mkRule "urgency"
      ["immediately"; "urgent"; "right now"; "account blocked";
       "account will be blocked"; "suspend"; "act now"] 25;
    mkRule "authority"
      ["arrest"; "police"; "legal"; "case"; "fine"; "court"] 20;
    mkRule "money_request"
      ["transfer"; "upi"; "gift card"; "pay"; "send money"] 25;
    mkRule "emotional" ["emergency"; "help"; "save"; "fear"; "threat"] 15 ].

(** [scamPatterns.find((p) => p.id === id)] *)
Definition find_pattern (i : string) : option ScamPattern :=
  List.find (fun p => (pattern_id p =? i)%string) scamPatterns.

Definition spread (p : option ScamPattern) (det : bool) (conf : Q)
  : ScamIndicator :=
  match p with
  | Some p =>
      mkIndicator (Some (pattern_id p)) (Some (pattern_type p))
        (Some (pattern_label p)) (Some (pattern_description p))
        (Some (pattern_severity p)) det conf
  | None => mkIndicator None None None None None det conf
  end.

(** [keywords.some((kw) => text.includes(kw))] *)
Definition some_keyword (text : string) (kws : list string) : bool :=
  existsb (fun kw => JS.includes text kw) kws.

(** The loop of lines 347-356, with the array and the score it updates. *)
Fixpoint scan (text : string) (ps : list PatternRule)
    (inds : list ScamIndicator) (score : Z) : list ScamIndicator * Z :=
  match ps with
  | [] => (inds, score)
  | p :: rest =>
      let found := some_keyword text (keywords p) in
      scan text rest
        (inds ++ [spread (find_pattern (rule_id p)) found
                    (if found then 85 # 100 else 0%Q)])%list
        (if found then score + weight p else score)
  end.

(** The score before [Math.min(100, _)]. *)
Definition rawScore (transcript : string) : Z :=
  snd (scan (JS.trim (JS.toLowerCase transcript)) patterns [] 0).

Definition level_of (score : Z) : RiskLevel :=
  if 50 <=? score then high else if 25 <=? score then medium else low.

Definition is_high (l : RiskLevel) : bool :=
  match l with
  | high => true
  | _ => false
  end.

Definition ruleBasedScamAnalysis (transcript language : string)
  : AnalysisResult :=
  let text := JS.trim (JS.toLowerCase transcript) in
  let '(inds, sum) := scan text patterns [] 0 in
  let inds := (inds ++ [spread (find_pattern "voice_pattern") false 0%Q])%list in
  let score := Z.min 100 sum in
  let level := level_of score in
  mkResult level
    (if is_high level then Z.max score 75 else score)
    inds
    (getLocalizedGuidance level language).

(** What one turn of the loop pushes for the rule [p] and adds to the
    score. *)
Definition entry (text : string) (p : PatternRule) : ScamIndicator :=
  let found := some_keyword text (keywords p) in
  spread (find_pattern (rule_id p)) found (if found then 85 # 100 else 0%Q).

Definition contribution (text : string) (p : PatternRule) : Z :=
  if some_keyword text (keywords p) then weight p else 0.

(** The ids flagged in a result, in the order of its [indicators]. *)
Definition detected_ids (r : AnalysisResult) : list (option string) :=
  map id (filter detected (indicators r)).

(** *** The scheduler

    The hook lives in a single-threaded event loop.  A task is a call of
    one or more of the hook's functions by the application, or the
    callback of a timer; the continuation of an [await] runs when the
    task that reached it is over, before the next task.  [setAnalysis]
    calls and entries of [analyzeTranscript] are recorded in the order in
    which they happen. *)

Inductive TimerKind : Type :=
| FirstCheck     (* setTimeout(runIntervalCheck, 2000) *)
| Interval       (* setInterval(runIntervalCheck, 3000) *)
| Debounce       (* the setTimeout of updateTranscript, 1000 *)
| AudioDelay.    (* the setTimeout awaited by analyzeAudio, 2000 *)

(** A pending timer; its callback has captured the [language] of the
    render that created it. *)
Record Timer := mkTimer {
  timer_id : nat;
  kind : TimerKind;
  captured : string
}.

Record State := mkState {
  isAnalyzing : bool;
  analysis : option AnalysisResult;
  intervalRef : option nat;
  firstCheckTimeoutRef : option nat;
  debounceRef : option nat;
  transcriptRef : string;
  lastAnalyzedLengthRef : nat;
  language : string;
  timers : list Timer;
  next_id : nat;
  (** the statements of [stopAnalysis] after its [await] are queued *)
  reset_queued : bool
}.

Inductive Action : Type :=
| Dispatched (transcript : string)   (* analyzeTranscript entered *)
| Published (r : AnalysisResult)     (* its setAnalysis(result) *)
| Baseline (r : AnalysisResult).     (* a setAnalysis outside a dispatch *)

Inductive Event : Type :=
| StartAnalysis (initialTranscript : string)
| UpdateTranscript (newTranscript : string)
| StopAnalysis
| AnalyzeTranscript (transcript : string)
| AnalyzeAudio
| TimerFires (i : nat)
| TaskEnds
| LanguageChanges (lang : string)
| Unmount.

Definition initial (lang : string) : State :=
  mkState false None None None None "" 0 lang [] 0 false.

Definition set_analysis (st : State) (r : AnalysisResult) : State :=
  mkState (isAnalyzing st) (Some r) (intervalRef st)
    (firstCheckTimeoutRef st) (debounceRef st) (transcriptRef st)
    (lastAnalyzedLengthRef st) (language st) (timers st) (next_id st)
    (reset_queued st).

Definition set_last (st : State) (n : nat) : State :=
  mkState (isAnalyzing st) (analysis st) (intervalRef st)
    (firstCheckTimeoutRef st) (debounceRef st) (transcriptRef st)
    n (language st) (timers st) (next_id st) (reset_queued st).

Definition set_transcript (st : State) (t : string) : State :=
  mkState (isAnalyzing st) (analysis st) (intervalRef st)
    (firstCheckTimeoutRef st) (debounceRef st) t
    (lastAnalyzedLengthRef st) (language st) (timers st) (next_id st)
    (reset_queued st).

Definition set_timers (st : State) (ts : list Timer) : State :=
  mkState (isAnalyzing st) (analysis st) (intervalRef st)
    (firstCheckTimeoutRef st) (debounceRef st) (transcriptRef st)
    (lastAnalyzedLengthRef st) (language st) ts (next_id st)
    (reset_queued st).

Definition without (i : nat) (ts : list Timer) : list Timer :=
  filter (fun t => negb (timer_id t =? i)%nat) ts.

(** [clearTimeout] and [clearInterval] of the timer a ref holds. *)
Definition clear (ref : option nat) (ts : list Timer) : list Timer :=
  match ref with
  | Some i => without i ts
  | None => ts
  end.

(** [setTimeout] and [setInterval]: the new timer and its id. *)
Definition schedule (st : State) (k : TimerKind) (lang : string)
  : State * nat :=
  let i := next_id st in
  (mkState (isAnalyzing st) (analysis st) (intervalRef st)
     (firstCheckTimeoutRef st) (debounceRef st) (transcriptRef st)
     (lastAnalyzedLengthRef st) (language st)
     (timers st ++ [mkTimer i k lang])%list (S i) (reset_queued st),
   i).

(** Lines 394-403.  The function has no [await]: it runs to its end,
    [setAnalysis] included, inside the call. *)
Definition analyzeTranscript (lang : string) (transcript : string)
    (st : State) : State * list Action :=
  let result := ruleBasedScamAnalysis transcript lang in
  (set_analysis st result, [Dispatched transcript; Published result]).

Definition ANALYZE_THRESHOLD : nat := 15.

(** Lines 424-437. *)
Definition runIntervalCheck (lang : string) (st : State)
  : State * list Action :=
  let currentTranscript := transcriptRef st in
  if ((ANALYZE_THRESHOLD <=? String.length currentTranscript)
      && (lastAnalyzedLengthRef st <? String.length currentTranscript))%nat
  then
    analyzeTranscript lang currentTranscript
      (set_last st (String.length currentTranscript))
  else (st, []).

(** The callback of lines 502-509. *)
Definition debounceFires (lang : string) (st : State)
  : State * list Action :=
  let st :=
    mkState (isAnalyzing st) (analysis st) (intervalRef st)
      (firstCheckTimeoutRef st) None (transcriptRef st)
      (lastAnalyzedLengthRef st) (language st) (timers st) (next_id st)
      (reset_queued st) in
  let current := transcriptRef st in
  if (lastAnalyzedLengthRef st <? String.length current)%nat
  then analyzeTranscript lang current (set_last st (String.length current))
  else (st, []).

(** [scamPatterns.map(p => ({ ...p, detected: false, confidence: 0 }))] *)
Definition all_clear : list ScamIndicator :=
  map (fun p => spread (Some p) false 0%Q) scamPatterns.

(** Lines 405-442. *)
Definition startAnalysis (initialTranscript : string) (st : State)
  : State * list Action :=
  let lang := language st in
  let base := mkResult low 0 all_clear (getLocalizedGuidance low lang) in
  let st :=
    mkState true (Some base) (intervalRef st) (firstCheckTimeoutRef st)
      (debounceRef st) initialTranscript 0 (language st) (timers st)
      (next_id st) (reset_queued st) in
  let '(st, first) := schedule st FirstCheck lang in
  let '(st, every) := schedule st Interval lang in
  (mkState (isAnalyzing st) (analysis st) (Some every) (Some first)
     (debounceRef st) (transcriptRef st) (lastAnalyzedLengthRef st)
     (language st) (timers st) (next_id st) (reset_queued st),
   [Baseline base]).

(** Lines 470-471. *)
Definition reset (st : State) : State :=
  mkState (isAnalyzing st) (analysis st) (intervalRef st)
    (firstCheckTimeoutRef st) (debounceRef st) "" 0 (language st)
    (timers st) (next_id st) false.

(** Lines 444-472.  After the [await] of the final analysis the last two
    statements are a continuation; without a final analysis they run in
    the call. *)
Definition stopAnalysis (st : State) : State * list Action :=
  let ts :=
    clear (intervalRef st)
      (clear (firstCheckTimeoutRef st) (clear (debounceRef st) (timers st))) in
  let st :=
    mkState false (analysis st) None None None (transcriptRef st)
      (lastAnalyzedLengthRef st) (language st) ts (next_id st)
      (reset_queued st) in
  let finalTranscript := transcriptRef st in
  if (15 <=? String.length finalTranscript)%nat then
    let '(st, acts) := analyzeTranscript (language st) finalTranscript st in
    (mkState (isAnalyzing st) (analysis st) (intervalRef st)
       (firstCheckTimeoutRef st) (debounceRef st) (transcriptRef st)
       (lastAnalyzedLengthRef st) (language st) (timers st) (next_id st)
       true,
     acts)
  else (reset st, []).

(** Lines 496-511. *)
Definition updateTranscript (newTranscript : string) (st : State)
  : State * list Action :=
  let st := set_transcript st newTranscript in
  if (10 <=? String.length (JS.trim newTranscript))%nat then
    let st := set_timers st (clear (debounceRef st) (timers st)) in
    let '(st, i) := schedule st Debounce (language st) in
    (mkState (isAnalyzing st) (analysis st) (intervalRef st)
       (firstCheckTimeoutRef st) (Some i) (transcriptRef st)
       (lastAnalyzedLengthRef st) (language st) (timers st) (next_id st)
       (reset_queued st),
     [])
  else (st, []).

(** Lines 474-492: the call only starts the two-second wait. *)
Definition analyzeAudio (st : State) : State * list Action :=
  (fst (schedule st AudioDelay (language st)), []).

Definition audioDelayOver (lang : string) (st : State)
  : State * list Action :=
  let result := mkResult medium 50 all_clear (getLocalizedGuidance medium lang) in
  (set_analysis st result, [Baseline result]).

(** The continuations queued by the task that just ended. *)
Definition drain (st : State) : State :=
  if reset_queued st then reset st else st.

Definition find_timer (i : nat) (st : State) : option Timer :=
  List.find (fun t => (timer_id t =? i)%nat) (timers st).

Definition one_shot (k : TimerKind) : bool :=
  match k with
  | Interval => false
  | _ => true
  end.

(** The callback of a pending timer runs as a task of its own. *)
Definition fire (i : nat) (st : State) : State * list Action :=
  let st := drain st in
  match find_timer i st with
  | None => (st, [])
  | Some t =>
      let st :=
        if one_shot (kind t) then set_timers st (without i (timers st))
        else st in
      match kind t with
      | FirstCheck | Interval => runIntervalCheck (captured t) st
      | Debounce => debounceFires (captured t) st
      | AudioDelay => audioDelayOver (captured t) st
      end
  end.

(** The cleanup of the effect of lines 513-519. *)
Definition unmount (st : State) : State :=
  set_timers st
    (clear (intervalRef st)
       (clear (firstCheckTimeoutRef st) (clear (debounceRef st) (timers st)))).

Definition step (st : State) (e : Event) : State * list Action :=
  match e with
  | StartAnalysis t => startAnalysis t st
  | UpdateTranscript t => updateTranscript t st
  | StopAnalysis => stopAnalysis st
  | AnalyzeTranscript t => analyzeTranscript (language st) t st
  | AnalyzeAudio => analyzeAudio st
  | TimerFires i => fire i st
  | TaskEnds => (drain st, [])
  | LanguageChanges lang =>
      (mkState (isAnalyzing st) (analysis st) (intervalRef st)
         (firstCheckTimeoutRef st) (debounceRef st) (transcriptRef st)
         (lastAnalyzedLengthRef st) lang (timers st) (next_id st)
         (reset_queued st), [])
  | Unmount => (unmount st, [])
  end.

(** An execution: the state reached and everything recorded on the way. *)
Fixpoint run (st : State) (es : list Event) : State * list Action :=
  match es with
  | [] => (st, [])
  | e :: rest =>
      let '(st1, a1) := step st e in
      let '(st2, a2) := run st1 rest in
      (st2, (a1 ++ a2)%list)
  end.

Definition trace (lang : string) (es : list Event) : list Action :=
  snd (run (initial lang) es).

(** Dispatches entered and not yet published at the end of a record. *)
Fixpoint in_flight (acts : list Action) : Z :=
  match acts with
  | [] => 0
  | Dispatched _ :: rest => in_flight rest + 1
  | Published _ :: rest => in_flight rest - 1
  | Baseline _ :: rest => in_flight rest
  end.

Definition dispatched (acts : list Action) : list string :=
  flat_map (fun a => match a with
                     | Dispatched t => [t]
                     | _ => []
                     end) acts.



End Hook.

(* ================================================================== *)
(** ** Requests and gateway answers used as examples *)
(* ================================================================== *)

Module Examples.

Import JS Edge.

Definition request : Request :=
  mkRequest "POST" (dq "{'transcript':'Share your OTP immediately'}").

Definition no_transcript : Request := mkRequest "POST" "{}".

Definition blank_transcript : Request :=
  mkRequest "POST" (dq "{'transcript':'   '}").

(** The gateway answering 200 with [content], written with escaped
    apostrophes, as the message of its first choice. *)
Definition gateway (content : string) : FetchOutcome :=
  FetchResponse 200
    (dq ("{'choices':[{'message':{'content':'" ++ content ++ "'}}]}")).

(** A well-formed analysis whose score is above 100. *)
Definition score_150 : string :=
  "{\'riskLevel\':\'high\',\'riskScore\':150,\'indicators\':[],\'guidance\':[]}".

(** A well-formed analysis naming urgency twice. *)
Definition urgency_twice : string :=
  "{\'riskLevel\':\'low\',\'riskScore\':10,\'indicators\':[{\'id\':\'urgency\'},{\'id\':\'urgency\'}],\'guidance\':[]}".

(** High risk with the lowest score the prompt allows for it. *)
Definition high_70 : string :=
  "{\'riskLevel\':\'high\',\'riskScore\':70,\'indicators\':[],\'guidance\':[]}".

(** A JSON text that is not an analysis of the result model: an unknown
    level and a score that is not a number. *)
Definition off_schema : string :=
  "{\'riskLevel\':\'severe\',\'riskScore\':\'ninety\',\'indicators\':[],\'guidance\':[]}".

(** A message that is not JSON. *)
Definition prose : string := "I cannot analyze this call.".

End Examples.

(* ================================================================== *)
(** ** Monitoring sessions used as examples *)
(* ================================================================== *)

Module Scenarios.

Import Hook.

(** Fourteen code units, then sixteen. *)
Definition fourteen : string := "Give me the OT".
Definition sixteen : string := "Give me the OTP.".

(** Monitoring starts on an empty transcript (timers 0, the warm-up, and
    1, the recurring one), the transcript grows to fourteen code units
    (timer 2, the debounce), and both checks run. *)
Definition checks_at_fourteen : list Event :=
  [StartAnalysis ""; UpdateTranscript fourteen; TimerFires 0; TimerFires 1].

(** The transcript grows on to sixteen code units and the recurring
    check runs again. *)
Definition check_at_sixteen : list Event :=
  (checks_at_fourteen ++ [UpdateTranscript sixteen; TimerFires 1])%list.

(** The state in which that check runs. *)
Definition at_sixteen : State :=
  fst (run (initial "en")
         (checks_at_fourteen ++ [UpdateTranscript sixteen])%list).

(** The transcript grows to fourteen code units and speech pauses: the
    debounce expires. *)
Definition pause_at_fourteen : list Event :=
  [StartAnalysis ""; UpdateTranscript fourteen; TimerFires 2].


(** A transcript the client scores high. *)
Definition alarming : string := "Share your OTP, the bank needs it.".


End Scenarios.

(* ================================================================== *)
(** ** The speech recogniser's callback in [useAudioRecorder] *)
(* ================================================================== *)

Module Recorder.

(** An entry of [event.results]: the transcript of its first alternative,
    [event.results[i][0].transcript], and its [isFinal] flag. *)
Record SpeechResult := mkSpeech {
  heard : string;
  isFinal : bool
}.

Record ResultEvent := mkEvent {
  resultIndex : nat;
  results : list SpeechResult
}.

(** The loop of lines 105-112 of [useAudioRecorder.ts] over the results
    from [resultIndex] on, with the two strings it builds. *)
Fixpoint collect (rs : list SpeechResult)
    (interimTranscript finalTranscript : string) : string * string :=
  match rs with
  | [] => (interimTranscript, finalTranscript)
  | r :: rest =>
      if isFinal r
      then collect rest interimTranscript (finalTranscript ++ (heard r ++ " "))
      else collect rest (interimTranscript ++ heard r) finalTranscript
  end.

(** [recognition.onresult] (lines 101-118): the new value of the
    [transcript] state, from the previous one. *)
Definition onresult (ev : ResultEvent) (prev : string) : string :=
  let '(_, finalTranscript) :=
    collect (skipn (resultIndex ev) (results ev)) "" "" in
  prev ++ finalTranscript.

(** The transcript after a series of result events, oldest first. *)
Definition heard_after (evs : list ResultEvent) (prev : string) : string :=
  fold_left (fun t ev => onresult ev t) evs prev.

End Recorder.

(* ================================================================== *)
(** ** The handlers of [MonitorView] that drive the hook *)
(* ================================================================== *)

Module Monitor.

Import Hook.

(** The effect of lines 183-187 of the view: a transcript that changed is
    handed to the hook while recording, unless it is empty. *)
Definition transcriptChanged (isRecording : bool) (transcript : string)
    (st : State) : State * list Action :=
  if isRecording && negb (transcript =? "")%string
  then updateTranscript transcript st
  else (st, []).

(** [handleManualAnalyze] (lines 203-215): both calls are made in one
    task. *)
Definition handleManualAnalyze (text : string) (st : State)
  : State * list Action :=
  let '(st1, a1) := updateTranscript text st in
  let '(st2, a2) := analyzeTranscript (language st1) text st1 in
  (st2, (a1 ++ a2)%list).

(** The Analyze button of Quick Analyze (line 345), and [handleAnalyze] of
    the transcript display, which has the same test. *)
Definition quickAnalyze (quickText : string) (st : State)
  : State * list Action :=
  if (10 <=? String.length (JS.trim quickText))%nat
  then handleManualAnalyze (JS.trim quickText) st
  else (st, []).

(** A [CallRecord] without its random [id] and its [date]. *)
Record CallRecord := mkCall {
  duration : Z;
  call_riskLevel : RiskLevel;
  call_riskScore : Z;
  call_indicators : list ScamIndicator
}.

(** [handleUploadTranscriptAnalyze] (lines 258-281): the record handed to
    [onCallComplete], if any. *)
Definition handleUploadTranscriptAnalyze (uploadTranscriptText : string)
    (st : State) : State * list Action * option CallRecord :=
  let text := JS.trim uploadTranscriptText in
  if (String.length text <? 10)%nat then (st, [], None)
  else
    let result := ruleBasedScamAnalysis text (language st) in
    (fst (analyzeTranscript (language st) text st),
     snd (analyzeTranscript (language st) text st),
     Some (mkCall 60 (riskLevel result) (riskScore result)
             (filter detected (indicators result)))).

End Monitor.

(* ================================================================== *)
(** ** The duration shown by [CallHistory] *)
(* ================================================================== *)

Module History.

Definition decimal (n : nat) : string :=
  NilZero.string_of_uint (Nat.to_uint n).

Fixpoint repeat_fill (fill : string) (n : nat) : string :=
  match n with
  | O => EmptyString
  | S k => fill ++ repeat_fill fill k
  end.

Fixpoint take (n : nat) (s : string) : string :=
  match n, s with
  | S k, String c s' => String c (take k s')
  | _, _ => EmptyString
  end.

(** [s.padStart(targetLength, fill)] for a non-empty [fill]: the
    repetition of [fill], cut to the length that is missing, goes in
    front. *)
Definition padStart (s : string) (targetLength : nat) (fill : string)
  : string :=
  let missing := (targetLength - String.length s)%nat in
  take missing (repeat_fill fill missing) ++ s.

(** Lines 122-124 of [CallHistory.tsx]:
    [{Math.floor(call.duration / 60)}:{String(call.duration % 60).padStart(2, '0')} min]
    for a duration in whole seconds. *)
Definition duration_text (duration : nat) : string :=
  decimal (duration / 60) ++ ":"
  ++ padStart (decimal (duration mod 60)) 2 "0" ++ " min".

(** Reading a field of the display back: the number a string of decimal
    digits denotes, leading zeros allowed. *)
Definition read (field : string) : option nat :=
  option_map Nat.of_uint (NilZero.uint_of_string field).

End History.

(* ================================================================== *)
(** ** Notions of the specification *)
(* ================================================================== *)

(** [text'] contains every keyword [text] contains. *)
Definition covers (text text' : string) : Prop :=
  forall kw, JS.includes text kw = true -> JS.includes text' kw = true.

(** The bands of the specification: [raw >= 50] is high, [25 <= raw < 50]
    is medium, anything lower is low. *)
Definition banded {L : Type} (raw : Z) (level hi med lo : L) : Prop :=
  (50 <= raw -> level = hi)
  /\ (25 <= raw < 50 -> level = med)
  /\ (raw < 25 -> level = lo).

(** [ids] lists each of the seven canonical ids once, and nothing else. *)
Definition canonical_once {A : Type} (canon ids : list A) : Prop :=
  List.length ids = 7%nat /\ NoDup ids /\ forall x, In x ids <-> In x canon.

(** The rule of a table for an id, in either table. *)
Definition edge_rule (i : string) : option Edge.PatternRule :=
  Edge.find_pattern Edge.patterns i.

Definition hook_rule (i : string) : option Hook.PatternRule :=
  List.find (fun p => (Hook.rule_id p =? i)%string) Hook.patterns.

(** No code unit of [s] is a backtick. *)
Fixpoint tickless (s : string) : bool :=
  match s with
  | EmptyString => true
  | String c s' => negb (c =? "`")%char && tickless s'
  end.

(** The final score the scorers make of a raw sum: the cap at 100, then
    the floor at 75 from 50 on. *)
Definition final_score (raw : Z) : Z :=
  let score := Z.min 100 raw in
  if 50 <=? score then Z.max score 75 else score.

Definition is_debounce (t : Hook.Timer) : bool :=
  match Hook.kind t with
  | Hook.Debounce => true
  | _ => false
  end.

(** Events in which the application calls none of [startAnalysis],
    [updateTranscript], [stopAnalysis] and [analyzeTranscript]: timer
    callbacks, task ends, [analyzeAudio], a change of language, the
    unmount. *)
Definition uncalled (e : Hook.Event) : bool :=
  match e with
  | Hook.StartAnalysis _ | Hook.UpdateTranscript _ | Hook.StopAnalysis
  | Hook.AnalyzeTranscript _ => false
  | _ => true
  end.



(** What holds of the timers in every state the hook reaches: ids are
    handed out once, in increasing order, and a pending debounce is the
    one [debounceRef] holds. *)
Record tidy (st : Hook.State) : Prop := mkTidy {
  ids_fresh :
    forall t, In t (Hook.timers st) -> (Hook.timer_id t < Hook.next_id st)%nat;
  ids_distinct : NoDup (map Hook.timer_id (Hook.timers st));
  debounce_fresh :
    forall i, Hook.debounceRef st = Some i -> (i < Hook.next_id st)%nat;
  debounce_held :
    forall t, In t (Hook.timers st) -> is_debounce t = true ->
              Hook.debounceRef st = Some (Hook.timer_id t)
}.

(* ================================================================== *)
(** ** Strings: prefixes, trimming and containment *)
(* ================================================================== *)

Section StringFacts.

Import JS.

Lemma prefix_append (p a b : string) :
  String.prefix p a = true -> String.prefix p (a ++ b) = true.
Proof.
  revert a; induction p as [|c p IH]; intros a H.
  - destruct (a ++ b); reflexivity.
  - destruct a as [|d a]; simpl in *; [discriminate|].
    destruct (ascii_dec c d); [auto | discriminate].
Qed.

Lemma includes_append (a b kw : string) :
  includes a kw = true -> includes (a ++ b) kw = true.
Proof.
  induction a as [|c a IH]; simpl; intros H.
  - rewrite orb_false_r in H.
    destruct kw; [|discriminate].
    destruct b; reflexivity.
  - apply orb_true_iff in H as [H|H].
    + apply (prefix_append _ (String c a) b) in H.
      simpl in H. rewrite H. reflexivity.
    + rewrite (IH H). apply orb_true_r.
Qed.

Lemma toLowerCase_append (a b : string) :
  toLowerCase (a ++ b) = toLowerCase a ++ toLowerCase b.
Proof.
  induction a as [|c a IH]; simpl; [reflexivity | now rewrite IH].
Qed.

Lemma append_assoc (a b c : string) : (a ++ b) ++ c = a ++ (b ++ c).
Proof.
  induction a as [|x a IH]; simpl; [reflexivity | now rewrite IH].
Qed.

Lemma append_nil_r (a : string) : a ++ "" = a.
Proof.
  induction a as [|x a IH]; simpl; [reflexivity | now rewrite IH].
Qed.

(** Text put after [a] leaves the front of [a] where it was: either [a]
    is blank throughout, or the blanks stripped from its front are the
    same. *)
Lemma trimStart_append (a b : string) :
  trimStart a = "" \/ trimStart (a ++ b) = trimStart a ++ b.
Proof.
  induction a as [|c a IH]; simpl.
  - left; reflexivity.
  - destruct (is_ws c); [exact IH | right; reflexivity].
Qed.

Lemma trimEnd_append (a b : string) :
  exists c, trimEnd (a ++ b) = trimEnd a ++ c.
Proof.
  induction a as [|x a [c IH]]; simpl.
  - exists (trimEnd b); reflexivity.
  - rewrite IH.
    destruct (trimEnd a) as [|y r] eqn:E; simpl.
    + destruct (is_ws x).
      * eexists; reflexivity.
      * destruct c; [exists "" | eexists]; reflexivity.
    + eexists; reflexivity.
Qed.

(** The trimmed text of [a] opens the trimmed text of [a ++ b]. *)
Lemma trim_append (a b : string) :
  exists c, trim (a ++ b) = trim a ++ c.
Proof.
  unfold trim.
  destruct (trimStart_append a b) as [E|E].
  - rewrite E. simpl. eexists; reflexivity.
  - rewrite E. apply trimEnd_append.
Qed.

Lemma normalize_append (t s : string) :
  exists c, trim (toLowerCase (t ++ s)) = trim (toLowerCase t) ++ c.
Proof.
  rewrite toLowerCase_append. apply trim_append.
Qed.

(** Every keyword found in the normalised [t] is found in the normalised
    [t ++ s]. *)
Lemma includes_extension (t s kw : string) :
  includes (trim (toLowerCase t)) kw = true ->
  includes (trim (toLowerCase (t ++ s))) kw = true.
Proof.
  intros H. destruct (normalize_append t s) as [c ->].
  now apply includes_append.
Qed.

End StringFacts.

(* ================================================================== *)
(** ** The two rule-based scorers *)
(* ================================================================== *)

Lemma covers_extension (t s : string) :
  covers (JS.trim (JS.toLowerCase t)) (JS.trim (JS.toLowerCase (t ++ s))).
Proof.
  intros kw. apply includes_extension.
Qed.

Lemma total_le (A : Type) (f g : A -> Z) (l : list A) :
  (forall x, In x l -> f x <= g x) ->
  total (map f l) <= total (map g l).
Proof.
  induction l as [|x l IH]; simpl; intros H; [lia|].
  assert (f x <= g x) by (apply H; now left).
  assert (total (map f l) <= total (map g l)) by (apply IH; intros; apply H; now right).
  lia.
Qed.

Lemma total_nonneg (A : Type) (f : A -> Z) (l : list A) :
  (forall x, In x l -> 0 <= f x) -> 0 <= total (map f l).
Proof.
  induction l as [|x l IH]; simpl; intros H; [lia|].
  assert (0 <= f x) by (apply H; now left).
  assert (0 <= total (map f l)) by (apply IH; intros; apply H; now right).
  lia.
Qed.

Section EdgeRules.

Import Edge.

Lemma some_keyword_covers (text text' : string) (kws : list string) :
  covers text text' ->
  some_keyword text kws = true -> some_keyword text' kws = true.
Proof.
  unfold some_keyword. intros C H.
  apply existsb_exists in H as (kw & Hin & Hk).
  apply existsb_exists. exists kw. split; [assumption | now apply C].
Qed.

(** The traversal, in closed form. *)
Lemma map_indicators_closed ps text types score :
  map_indicators ps text types score
  = (map (entry ps text) types,
     score + total (map (contribution ps text) types)).
Proof.
  revert score; induction types as [|ty rest IH]; intros score; simpl.
  - f_equal; lia.
  - rewrite IH. unfold entry, detects, contribution.
    destruct (find_pattern ps ty) as [p|]; simpl.
    + destruct (some_keyword text (keywords p)); f_equal; lia.
    + f_equal; lia.
Qed.

Lemma patterns_weights : Forall (fun p => 0 <= weight p) patterns.
Proof.
  repeat constructor; simpl; lia.
Qed.

Lemma find_pattern_weight ty p :
  find_pattern patterns ty = Some p -> 0 <= weight p.
Proof.
  intros H. apply find_some in H as [Hin _].
  exact (proj1 (Forall_forall _ _) patterns_weights p Hin).
Qed.

Lemma contribution_nonneg text ty : 0 <= contribution patterns text ty.
Proof.
  unfold contribution.
  destruct (find_pattern patterns ty) as [p|] eqn:E; [|lia].
  apply find_pattern_weight in E.
  destruct (some_keyword text (keywords p)); lia.
Qed.

Lemma contribution_covers text text' ty :
  covers text text' ->
  contribution patterns text ty <= contribution patterns text' ty.
Proof.
  intros C. unfold contribution.
  destruct (find_pattern patterns ty) as [p|] eqn:E; [|lia].
  apply find_pattern_weight in E.
  destruct (some_keyword text (keywords p)) eqn:K.
  - rewrite (some_keyword_covers _ _ _ C K). lia.
  - destruct (some_keyword text' (keywords p)); lia.
Qed.

Lemma detects_covers text text' ty :
  covers text text' ->
  detects patterns text ty = true -> detects patterns text' ty = true.
Proof.
  intros C. unfold detects.
  destruct (find_pattern patterns ty) as [p|]; [|discriminate].
  now apply some_keyword_covers.
Qed.

Lemma rawScore_closed text :
  rawScore text = total (map (contribution patterns text) indicatorTypes).
Proof.
  unfold rawScore. rewrite map_indicators_closed. reflexivity.
Qed.

Lemma rawScore_nonneg text : 0 <= rawScore text.
Proof.
  rewrite rawScore_closed. apply total_nonneg.
  intros; apply contribution_nonneg.
Qed.

(** The result, field by field. *)
Lemma ruleBased_closed text :
  ruleBased text
  = let score := Z.min 100 (rawScore text) in
    let level := level_of score in
    mkResult level
      (if (level =? "high")%string then Z.max score 75 else score)
      (map (entry patterns text) indicatorTypes)
      (guidance_of level).
Proof.
  unfold ruleBased, rawScore.
  rewrite map_indicators_closed. reflexivity.
Qed.

Lemma flagged_entries ps text (l : list string) :
  map id (filter detected (map (entry ps text) l))
  = filter (detects ps text) l.
Proof.
  induction l as [|ty l IH]; simpl; [reflexivity|].
  destruct (detects ps text ty); simpl; now rewrite IH.
Qed.

Lemma detected_ids_closed text :
  detected_ids (ruleBased text)
  = filter (detects patterns text) indicatorTypes.
Proof.
  rewrite ruleBased_closed. unfold detected_ids.
  cbv zeta. cbn [indicators]. apply flagged_entries.
Qed.

Lemma level_of_min score : level_of (Z.min 100 score) = level_of score.
Proof.
  unfold level_of.
  destruct (Z.leb_spec 50 score), (Z.leb_spec 50 (Z.min 100 score));
    try lia; try reflexivity.
  destruct (Z.leb_spec 25 score), (Z.leb_spec 25 (Z.min 100 score));
    try lia; reflexivity.
Qed.

End EdgeRules.

Section HookRules.

Import Hook.

(** The loop, in closed form. *)
Lemma scan_closed text ps inds score :
  scan text ps inds score
  = ((inds ++ map (entry text) ps)%list,
     score + total (map (contribution text) ps)).
Proof.
  revert inds score; induction ps as [|p rest IH]; intros inds score; simpl.
  - rewrite app_nil_r. f_equal; lia.
  - rewrite IH. rewrite <- app_assoc. simpl.
    unfold entry, contribution.
    destruct (Hook.some_keyword text (keywords p)); f_equal; lia.
Qed.

Lemma hook_weights : Forall (fun p => 0 <= weight p) patterns.
Proof.
  repeat constructor; simpl; lia.
Qed.

Lemma hook_some_keyword_covers (text text' : string) (kws : list string) :
  covers text text' ->
  Hook.some_keyword text kws = true -> Hook.some_keyword text' kws = true.
Proof.
  unfold Hook.some_keyword. intros C H.
  apply existsb_exists in H as (kw & Hin & Hk).
  apply existsb_exists. exists kw. split; [assumption | now apply C].
Qed.

Lemma hook_contribution_nonneg text p :
  In p patterns -> 0 <= contribution text p.
Proof.
  intros Hin. unfold contribution.
  pose proof (proj1 (Forall_forall _ _) hook_weights p Hin) as W.
  simpl in W. destruct (Hook.some_keyword text (keywords p)); lia.
Qed.

Lemma hook_contribution_covers text text' p :
  covers text text' -> In p patterns ->
  contribution text p <= contribution text' p.
Proof.
  intros C Hin. unfold contribution.
  pose proof (proj1 (Forall_forall _ _) hook_weights p Hin) as W.
  simpl in W.
  destruct (Hook.some_keyword text (keywords p)) eqn:K.
  - rewrite (hook_some_keyword_covers _ _ _ C K). lia.
  - destruct (Hook.some_keyword text' (keywords p)); lia.
Qed.

Lemma hook_rawScore_closed transcript :
  rawScore transcript
  = total (map (contribution (JS.trim (JS.toLowerCase transcript))) patterns).
Proof.
  unfold rawScore. rewrite scan_closed. reflexivity.
Qed.

Lemma hook_rawScore_nonneg transcript : 0 <= rawScore transcript.
Proof.
  rewrite hook_rawScore_closed. apply total_nonneg.
  intros; now apply hook_contribution_nonneg.
Qed.

(** The result, field by field. *)
Lemma ruleBasedScamAnalysis_closed transcript lang :
  ruleBasedScamAnalysis transcript lang
  = let text := JS.trim (JS.toLowerCase transcript) in
    let score := Z.min 100 (rawScore transcript) in
    let level := Hook.level_of score in
    Hook.mkResult level
      (if is_high level then Z.max score 75 else score)
      (map (entry text) patterns
         ++ [spread (find_pattern "voice_pattern") false 0%Q])%list
      (getLocalizedGuidance level lang).
Proof.
  unfold ruleBasedScamAnalysis, rawScore.
  rewrite scan_closed. reflexivity.
Qed.

Lemma hook_level_of_min score :
  Hook.level_of (Z.min 100 score) = Hook.level_of score.
Proof.
  unfold Hook.level_of.
  destruct (Z.leb_spec 50 score), (Z.leb_spec 50 (Z.min 100 score));
    try lia; try reflexivity.
  destruct (Z.leb_spec 25 score), (Z.leb_spec 25 (Z.min 100 score));
    try lia; reflexivity.
Qed.

(** An entry is flagged exactly when its rule found a keyword, and it
    carries the id of its rule. *)
Lemma entry_flagged text p :
  In p patterns ->
  Hook.detected (entry text p) = Hook.some_keyword text (keywords p)
  /\ Hook.id (entry text p) = Some (rule_id p).
Proof.
  intros Hin. unfold entry.
  simpl in Hin.
  repeat (destruct Hin as [<- | Hin]; [split; reflexivity|]).
  contradiction.
Qed.

Lemma hook_detected_covers text text' (o : option string) :
  covers text text' ->
  In o (map Hook.id (filter Hook.detected (map (entry text) patterns))) ->
  In o (map Hook.id (filter Hook.detected (map (entry text') patterns))).
Proof.
  intros C H.
  apply in_map_iff in H as (i & <- & Hi).
  apply filter_In in Hi as [Hi Hd].
  apply in_map_iff in Hi as (p & <- & Hp).
  destruct (entry_flagged text p Hp) as [D I].
  destruct (entry_flagged text' p Hp) as [D' I'].
  apply in_map_iff. exists (entry text' p). split.
  - now rewrite I, I'.
  - apply filter_In. split.
    + apply in_map_iff. now exists p.
    + rewrite D'. rewrite D in Hd. now apply (hook_some_keyword_covers text).
Qed.

Lemma hook_detected_ids_closed transcript lang :
  detected_ids (ruleBasedScamAnalysis transcript lang)
  = map Hook.id
      (filter Hook.detected
         (map (entry (JS.trim (JS.toLowerCase transcript))) patterns)).
Proof.
  rewrite ruleBasedScamAnalysis_closed. unfold detected_ids.
  cbv zeta. cbn [Hook.indicators].
  rewrite filter_app. simpl filter at 2. now rewrite app_nil_r.
Qed.

End HookRules.

(* ================================================================== *)
(** ** Properties of the rule-based scorers *)
(* ================================================================== *)

Lemma banded_level_of (raw : Z) :
  banded raw (Edge.level_of raw) "high" "medium" "low".
Proof.
  unfold banded, Edge.level_of.
  destruct (Z.leb_spec 50 raw), (Z.leb_spec 25 raw);
    repeat split; intros; try lia; reflexivity.
Qed.

Lemma banded_hook_level_of (raw : Z) :
  banded raw (Hook.level_of raw) Hook.high Hook.medium Hook.low.
Proof.
  unfold banded, Hook.level_of.
  destruct (Z.leb_spec 50 raw), (Z.leb_spec 25 raw);
    repeat split; intros; try lia; reflexivity.
Qed.

(** C7.  In both rule-based scorers the risk level of the result is the
    band of the score as it stands before the floor correction, that is of
    the sum of the matched weights capped at 100, and equally of the sum
    itself: 50 or more is high, 25 to 49 is medium, less than 25 is low. *)
Theorem C7_level_is_band_of_raw_score :
  forall transcript language : string,
    let text := Edge.normalize transcript in
    let edge_level := Edge.riskLevel (Edge.ruleBased text) in
    let hook_level :=
      Hook.riskLevel (Hook.ruleBasedScamAnalysis transcript language) in
    banded (Z.min 100 (Edge.rawScore text)) edge_level "high" "medium" "low"
    /\ banded (Edge.rawScore text) edge_level "high" "medium" "low"
    /\ banded (Z.min 100 (Hook.rawScore transcript)) hook_level
         Hook.high Hook.medium Hook.low
    /\ banded (Hook.rawScore transcript) hook_level
         Hook.high Hook.medium Hook.low.
Proof.
  intros transcript language text edge_level hook_level.
  subst edge_level hook_level.
  rewrite ruleBased_closed, ruleBasedScamAnalysis_closed.
  cbv zeta. cbn [Edge.riskLevel Hook.riskLevel].
  split; [apply banded_level_of|].
  split; [rewrite level_of_min; apply banded_level_of|].
  split; [apply banded_hook_level_of|].
  rewrite hook_level_of_min. apply banded_hook_level_of.
Qed.

(** C7 at work: a transcript with an OTP request (30) and urgency (25)
    sums to 55 and is high in both scorers; one naming a bank only (25) is
    medium; a greeting is low. *)
Lemma C7_bands_witness :
  Edge.riskLevel (Edge.ruleBased (Edge.normalize "Share your OTP immediately"))
  = "high"
  /\ Hook.riskLevel (Hook.ruleBasedScamAnalysis "I am from the Bank" "en")
     = Hook.medium
  /\ Edge.riskLevel (Edge.ruleBased (Edge.normalize "Hi, how are you?"))
     = "low".
Proof.
  split; [|split].
  - apply (C7_level_is_band_of_raw_score "Share your OTP immediately" "en").
    vm_compute. discriminate.
  - apply (C7_level_is_band_of_raw_score "I am from the Bank" "en").
    vm_compute. split; [discriminate | reflexivity].
  - apply (C7_level_is_band_of_raw_score "Hi, how are you?" "en").
    vm_compute. reflexivity.
Defined.

Remark shared_rules_same_weight :
  forall pe ph,
    In pe Edge.patterns -> In ph Hook.patterns ->
    Edge.rule_id pe = Hook.rule_id ph ->
    Edge.weight pe = Hook.weight ph.
Proof.
  intros pe ph He Hh.
  simpl in He, Hh.
  repeat (destruct He as [<- | He]);
    repeat (destruct Hh as [<- | Hh]);
    simpl; intros E; try reflexivity; try discriminate; try contradiction.
Qed.

(** C9, as the claim states it, fails in its part on weights: every id
    with a rule in both tables has the same weight in both.  The rules of
    the edge function, each with its weight and the weight of the client's
    rule for the same id: *)
Lemma C9_shared_ids_same_weight :
  map (fun pe =>
         (Edge.rule_id pe, Edge.weight pe,
          option_map Hook.weight (hook_rule (Edge.rule_id pe))))
      Edge.patterns
  = [("impersonation", 25, Some 25); ("otp_request", 30, Some 30);
     ("urgency", 25, Some 25); ("authority", 20, Some 20);
     ("money_request", 25, Some 25)].
Proof.
  vm_compute. reflexivity.
Qed.

(** C9, amended.  The table of the edge function and the table of the
    client do not define the same scorer.  On the transcript "the court"
    the edge function scores 0 and flags nothing while the client scores
    20 and flags authority.  The tables differ in the keywords of a shared
    id ("court" belongs to authority in the client only) and in their
    rules: emotional has a rule, of weight 15, in the client and none in
    the edge function.  They do not differ in the weight of any id that
    has a rule in both. *)
Theorem C9_scoring_tables_disagree :
  (exists transcript language : string,
      let e := Edge.ruleBased (Edge.normalize transcript) in
      let h := Hook.ruleBasedScamAnalysis transcript language in
      Edge.riskScore e <> Hook.riskScore h
      /\ exists i, In (Some i) (Hook.detected_ids h)
                   /\ ~ In i (Edge.detected_ids e))
  /\ (exists i pe ph kw,
         edge_rule i = Some pe /\ hook_rule i = Some ph
         /\ In kw (Hook.keywords ph) /\ ~ In kw (Edge.keywords pe))
  /\ (edge_rule "emotional" = None
      /\ option_map Hook.weight (hook_rule "emotional") = Some 15)
  /\ (forall i pe ph,
         edge_rule i = Some pe -> hook_rule i = Some ph ->
         Edge.weight pe = Hook.weight ph).
Proof.
  split; [|split; [|split]].
  - exists "the court", "en". cbv zeta. split.
    + vm_compute. discriminate.
    + exists "authority". split.
      * vm_compute. now left.
      * vm_compute. intros [].
  - exists "authority".
    eexists. eexists. exists "court".
    split; [reflexivity|]. split; [reflexivity|]. split.
    + simpl. tauto.
    + simpl. intros H.
      repeat (destruct H as [H|H]; [discriminate|]). contradiction.
  - split; reflexivity.
  - intros i pe ph He Hh.
    unfold edge_rule, Edge.find_pattern in He. unfold hook_rule in Hh.
    pose proof (find_some _ _ He) as [Ie Ee].
    pose proof (find_some _ _ Hh) as [Ih Eh].
    apply String.eqb_eq in Ee. apply String.eqb_eq in Eh.
    apply shared_rules_same_weight; [assumption | assumption | congruence].
Qed.

Lemma filter_In_weaken (A : Type) (f g : A -> bool) (l : list A) (x : A) :
  (f x = true -> g x = true) -> In x (filter f l) -> In x (filter g l).
Proof.
  intros H Hin. apply filter_In in Hin as [Hin Hf].
  apply filter_In. split; [assumption | now apply H].
Qed.

(** C10.  Both rule-based scorers are monotone under extension of the
    transcript: whatever is appended, every id flagged for [t] is flagged
    for [t ++ s], and the score before the cap at 100 does not decrease. *)
Theorem C10_monotone_under_extension :
  forall t s language : string,
    (forall i,
        In i (Edge.detected_ids (Edge.ruleBased (Edge.normalize t))) ->
        In i (Edge.detected_ids (Edge.ruleBased (Edge.normalize (t ++ s)))))
    /\ Edge.rawScore (Edge.normalize t)
       <= Edge.rawScore (Edge.normalize (t ++ s))
    /\ (forall i,
           In i (Hook.detected_ids (Hook.ruleBasedScamAnalysis t language)) ->
           In i (Hook.detected_ids
                   (Hook.ruleBasedScamAnalysis (t ++ s) language)))
    /\ Hook.rawScore t <= Hook.rawScore (t ++ s).
Proof.
  intros t s language.
  pose proof (covers_extension t s) as C.
  unfold Edge.normalize.
  repeat split.
  - intros i. rewrite !detected_ids_closed.
    apply filter_In_weaken. now apply detects_covers.
  - rewrite !rawScore_closed. apply total_le.
    intros ty _. now apply contribution_covers.
  - intros i. rewrite !hook_detected_ids_closed.
    now apply hook_detected_covers.
  - rewrite !hook_rawScore_closed. apply total_le.
    intros p Hp. now apply hook_contribution_covers.
Qed.

(** C10 at work: "share otp" flags otp_request, and still does when the
    call goes on. *)
Lemma C10_extension_witness :
  In "otp_request"
     (Edge.detected_ids
        (Edge.ruleBased (Edge.normalize ("Share OTP" ++ " and stay on the line"))))
  /\ In (Some "otp_request")
        (Hook.detected_ids
           (Hook.ruleBasedScamAnalysis ("Share OTP" ++ " and stay on the line") "en")).
Proof.
  destruct (C10_monotone_under_extension "Share OTP" " and stay on the line" "en")
    as (He & _ & Hh & _).
  split.
  - apply He. vm_compute. now left.
  - apply Hh. vm_compute. now left.
Defined.

(* ================================================================== *)
(** ** The request handler of the edge function *)
(* ================================================================== *)

Section EdgeHandler.

Import JS Edge.

Lemma lookup_set_field_same k v fs :
  lookup k (set_field k v fs) = Some v.
Proof.
  induction fs as [|[k' v'] fs IH]; simpl.
  - now rewrite String.eqb_refl.
  - destruct (String.eqb_spec k' k); simpl.
    + now rewrite String.eqb_refl.
    + destruct (String.eqb_spec k' k); [contradiction | exact IH].
Qed.

Lemma lookup_set_field_other k k' v fs :
  k <> k' -> lookup k' (set_field k v fs) = lookup k' fs.
Proof.
  intros N. induction fs as [|[k0 v0] fs IH]; simpl.
  - destruct (String.eqb_spec k k'); [contradiction | reflexivity].
  - destruct (String.eqb_spec k0 k) as [->|]; simpl.
    + destruct (String.eqb_spec k k'); [contradiction | reflexivity].
    + destruct (String.eqb_spec k0 k'); [reflexivity | exact IH].
Qed.

Lemma map_ids_ok items ids :
  map_ids items = Ok ids ->
  ids = map (fun i => prop i "id") items /\ Forall (fun i => i <> JNull) items.
Proof.
  revert ids; induction items as [|i items IH]; simpl; intros ids H.
  - inversion H. split; [reflexivity | constructor].
  - destruct i; try discriminate;
      (destruct (map_ids items) as [ids'|] eqn:E; simpl in H; [|discriminate];
       inversion H; subst; destruct (IH _ eq_refl) as [-> F];
       split; [reflexivity | constructor; [discriminate | assumption]]).
Qed.

(** The loop pushes the missing ids, in canonical order, behind the
    entries that were there. *)
Lemma fold_push ids (types : list string) (items : list JSValue) :
  fold_left
    (fun acc ty =>
       if has_id ids ty then acc else (acc ++ [backfill_entry ty])%list)
    types items
  = (items
     ++ map backfill_entry (filter (fun ty => negb (has_id ids ty)) types))%list.
Proof.
  revert items; induction types as [|ty types IH]; intros items; simpl.
  - now rewrite app_nil_r.
  - rewrite IH. destruct (has_id ids ty); simpl; [reflexivity|].
    now rewrite <- app_assoc.
Qed.

Lemma backfill_ok v a :
  backfill v = Ok a ->
  exists fs items,
    v = JObj fs
    /\ lookup "indicators" fs = Some (JArr items)
    /\ Forall (fun i => i <> JNull) items
    /\ a = JObj (set_field "indicators"
                   (JArr (items ++ map backfill_entry (missing items))%list) fs).
Proof.
  unfold backfill. intros H.
  destruct v as [| | | | |fs]; try discriminate.
  destruct (lookup "indicators" fs) as [[| | | |items|]|] eqn:L; try discriminate.
  destruct (map_ids items) as [ids|] eqn:M; simpl in H; [|discriminate].
  apply map_ids_ok in M as [-> F].
  inversion H; subst. exists fs, items.
  repeat split; try assumption.
  unfold push_missing. now rewrite fold_push.
Qed.

(** Backfilling touches [indicators] and nothing else. *)
Lemma backfill_keeps v a k :
  backfill v = Ok a -> k <> "indicators" -> prop a k = prop v k.
Proof.
  intros H N. apply backfill_ok in H as (fs & items & -> & _ & _ & ->).
  simpl. apply lookup_set_field_other. congruence.
Qed.

Lemma backfill_indicators v a :
  backfill v = Ok a ->
  exists items,
    prop v "indicators" = Some (JArr items)
    /\ prop a "indicators"
       = Some (JArr (items ++ map backfill_entry (missing items))%list).
Proof.
  intros H. apply backfill_ok in H as (fs & items & -> & L & _ & ->).
  exists items. split; [exact L|]. simpl. apply lookup_set_field_same.
Qed.

Lemma backfill_neutral : backfill neutral_default = Ok neutral_result.
Proof. reflexivity. Qed.

Variable parse : string -> option JSValue.

Lemma parse_analysis_decoded content v :
  decoded parse content = Ok v -> parse_analysis parse content = v.
Proof. unfold parse_analysis. now intros ->. Qed.

Lemma parse_analysis_fallback content e :
  decoded parse content = Throw e ->
  parse_analysis parse content = neutral_default.
Proof. unfold parse_analysis. now intros ->. Qed.

(** A 200 from the AI branch carries the backfilled analysis of the
    message the gateway sent. *)
Lemma on_ai_response_ok text r :
  on_ai_response parse text = Ok r ->
  exists ai content a,
    parse text = Some ai
    /\ message_content ai = Ok (Some (JStr content))
    /\ content <> ""
    /\ backfill (parse_analysis parse content) = Ok a
    /\ r = mkResponse 200 (Json a).
Proof.
  unfold on_ai_response, decode. intros H.
  destruct (parse text) as [ai|] eqn:P; simpl in H; [|discriminate].
  destruct (message_content ai) as [c|] eqn:M; simpl in H; [|discriminate].
  destruct c as [[| | |content| |]|]; try discriminate.
  destruct (String.eqb_spec content ""); [discriminate|].
  destruct (backfill (parse_analysis parse content)) as [a|] eqn:B;
    simpl in H; [|discriminate].
  inversion H; subst. exists ai, content, a. repeat split; assumption.
Qed.

Lemma after_fetch_200 outcome :
  status (catch500 (after_fetch parse outcome)) = 200 ->
  exists st text,
    outcome = FetchResponse st text
    /\ 200 <= st <= 299
    /\ exists r, on_ai_response parse text = Ok r
                 /\ catch500 (after_fetch parse outcome) = r.
Proof.
  unfold after_fetch. intros H.
  destruct outcome as [|st text]; simpl in H; [discriminate|].
  destruct ((200 <=? st) && (st <=? 299)) eqn:R.
  - apply andb_true_iff in R as [R1 R2].
    apply Z.leb_le in R1. apply Z.leb_le in R2.
    exists st, text. split; [reflexivity|]. split; [lia|].
    destruct (on_ai_response parse text) as [r|] eqn:A; simpl in H;
      [|discriminate].
    exists r. split; reflexivity.
  - destruct (st =? 429); simpl in H; [discriminate|].
    destruct (st =? 402); simpl in H; discriminate.
Qed.

(** The handler, case by case. *)
Lemma serve_cases key req :
  serve parse key req = Done (mkResponse 200 NoBody)
     /\ method req = "OPTIONS"
  \/ (exists e, serve parse key req = Done (mkResponse 500 (error_body e)))
  \/ serve parse key req
     = Done (mkResponse 400 (error_json "No transcript provided"))
  \/ (exists transcript,
         no_key key = true
         /\ serve parse key req
            = Done (mkResponse 200
                      (Json (result_json (ruleBased (normalize transcript))))))
  \/ (exists transcript language,
         no_key key = false
         /\ serve parse key req
            = Fetch transcript language
                    (fun outcome => catch500 (after_fetch parse outcome))).
Proof.
  unfold serve.
  destruct (String.eqb_spec (method req) "OPTIONS") as [E|E];
    [left; split; [reflexivity | assumption]|].
  right.
  destruct (v <- decode parse (req_body req);;
            tl <- destructure v;; t <- provided (fst tl);; Ok (t, snd tl))
    as [[[transcript|] language]|e].
  - destruct (no_key key) eqn:K.
    + right; right; left. exists transcript. split; reflexivity.
    + right; right; right. exists transcript, language. split; reflexivity.
  - right; left; reflexivity.
  - left. exists e. reflexivity.
Qed.

(** Without a key the handler never calls the gateway, and a 200 to a
    request that is not a preflight carries the rule-based result. *)
Lemma respond_no_key key req outcome :
  no_key key = true ->
  method req <> "OPTIONS" ->
  status (respond parse key req outcome) = 200 ->
  exists transcript,
    respond parse key req outcome
    = mkResponse 200 (Json (result_json (ruleBased (normalize transcript)))).
Proof.
  intros K M. unfold respond.
  destruct (serve_cases key req)
    as [[_ O]|[[e ->]|[->|[(t & _ & ->)|(t & l & K' & _)]]]]; simpl; intros S.
  - contradiction.
  - discriminate.
  - discriminate.
  - exists t. reflexivity.
  - congruence.
Qed.

(** With a key, a 200 to a request that is not a preflight carries the
    backfilled analysis of the gateway's message. *)
Lemma respond_with_key key req outcome :
  no_key key = false ->
  method req <> "OPTIONS" ->
  status (respond parse key req outcome) = 200 ->
  exists content a,
    message_of parse outcome content
    /\ backfill (parse_analysis parse content) = Ok a
    /\ respond parse key req outcome = mkResponse 200 (Json a).
Proof.
  intros K M. unfold respond.
  destruct (serve_cases key req)
    as [[_ O]|[[e ->]|[->|[(t & K' & _)|(t & l & _ & ->)]]]]; simpl; intros S.
  - contradiction.
  - discriminate.
  - discriminate.
  - congruence.
  - apply after_fetch_200 in S as (st & text & -> & R & r & A & ->).
    apply on_ai_response_ok in A as (ai & content & a & P & C & N & B & ->).
    exists content, a. repeat split; try assumption.
    exists st, text, ai. repeat split; try assumption; lia.
Qed.

Lemma message_of_completion st text content :
  200 <= st <= 299 ->
  parse text = Some (completion content) ->
  content <> "" ->
  message_of parse (FetchResponse st text) content.
Proof.
  intros R P N. exists st, text, (completion content).
  repeat split; try assumption; lia.
Qed.

(** Conversely, a message the handler can read is answered with its
    backfilled analysis, or with 500 when backfilling throws. *)
Lemma answer_to_message outcome content :
  message_of parse outcome content ->
  catch500 (after_fetch parse outcome)
  = catch500 (a <- backfill (parse_analysis parse content) ;;
              Ok (mkResponse 200 (Json a))).
Proof.
  intros (st & text & ai & -> & R & P & C & N).
  unfold after_fetch.
  replace ((200 <=? st) && (st <=? 299)) with true
    by (symmetry; apply andb_true_iff; split; apply Z.leb_le; lia).
  unfold on_ai_response, decode. rewrite P. simpl. rewrite C. simpl.
  destruct (String.eqb_spec content ""); [contradiction | reflexivity].
Qed.

End EdgeHandler.

Section EdgePaths.

Import JS Edge.

Lemma ruleBased_score_range text :
  0 <= riskScore (ruleBased text) <= 100.
Proof.
  rewrite ruleBased_closed. cbv zeta. cbn [riskScore].
  pose proof (rawScore_nonneg text).
  destruct (_ =? _)%string; lia.
Qed.

Lemma ruleBased_ids text :
  map id (indicators (ruleBased text)) = indicatorTypes.
Proof.
  rewrite ruleBased_closed. cbv zeta. cbn [indicators].
  rewrite map_map. apply map_id.
Qed.

Lemma ruleBased_floor text :
  riskLevel (ruleBased text) = "high" -> 75 <= riskScore (ruleBased text).
Proof.
  rewrite ruleBased_closed. cbv zeta. cbn [riskLevel riskScore].
  intros ->. simpl. lia.
Qed.

Lemma result_json_level r :
  body_prop (Json (result_json r)) "riskLevel" = Some (JStr (riskLevel r)).
Proof. reflexivity. Qed.

Lemma result_json_ids r :
  body_ids (Json (result_json r))
  = map (fun i => Some (JStr (id i))) (indicators r).
Proof.
  unfold body_ids. simpl. rewrite map_map. reflexivity.
Qed.

Variable parse : string -> option JSValue.

Lemma serve_fetch key req transcript language k :
  serve parse key req = Fetch transcript language k ->
  no_key key = false
  /\ k = (fun outcome => catch500 (after_fetch parse outcome)).
Proof.
  intros H.
  destruct (serve_cases parse key req)
    as [[E _]|[[e E]|[E|[(t & _ & E)|(t & l & K & E)]]]];
    rewrite E in H; try discriminate.
  inversion H. split; [assumption | reflexivity].
Qed.

(** On the AI branch every property of the answer but [indicators] is
    the one of the analysis taken from the message, and [indicators] is
    the array of that analysis followed by an entry for each canonical id
    it lacks. *)
Lemma ai_answer key req outcome :
  no_key key = false ->
  method req <> "OPTIONS" ->
  status (respond parse key req outcome) = 200 ->
  exists content items,
    message_of parse outcome content
    /\ (forall k, k <> "indicators" ->
          body_prop (body (respond parse key req outcome)) k
          = prop (parse_analysis parse content) k)
    /\ prop (parse_analysis parse content) "indicators" = Some (JArr items)
    /\ body_prop (body (respond parse key req outcome)) "indicators"
       = Some (JArr (items ++ map backfill_entry (missing items))%list).
Proof.
  intros K M S.
  destruct (respond_with_key parse key req outcome K M S)
    as (content & a & Hm & B & ->).
  destruct (backfill_indicators _ _ B) as (items & I1 & I2).
  exists content, items. repeat split; try assumption.
  intros k N. simpl. now apply backfill_keeps.
Qed.

Lemma neutral_fields content e :
  decoded parse content = Throw e ->
  prop (parse_analysis parse content) "riskLevel" = Some (JStr "medium")
  /\ prop (parse_analysis parse content) "riskScore" = Some (JNum 50)
  /\ prop (parse_analysis parse content) "indicators" = Some (JArr [])
  /\ prop (parse_analysis parse content) "guidance"
     = Some (JArr [JStr "Unable to fully analyze. Please be cautious."]).
Proof.
  intros H. rewrite (parse_analysis_fallback parse content e H).
  repeat split.
Qed.

End EdgePaths.

Section HookPaths.

Import Hook.

Lemma hook_score_range transcript lang :
  0 <= riskScore (ruleBasedScamAnalysis transcript lang) <= 100.
Proof.
  rewrite ruleBasedScamAnalysis_closed. cbv zeta. cbn [riskScore].
  pose proof (hook_rawScore_nonneg transcript).
  destruct (is_high _); lia.
Qed.

Lemma hook_floor transcript lang :
  riskLevel (ruleBasedScamAnalysis transcript lang) = high ->
  75 <= riskScore (ruleBasedScamAnalysis transcript lang).
Proof.
  rewrite ruleBasedScamAnalysis_closed. cbv zeta. cbn [riskLevel riskScore].
  intros ->. simpl. lia.
Qed.

Lemma hook_ids transcript lang :
  map id (indicators (ruleBasedScamAnalysis transcript lang))
  = map Some ["impersonation"; "otp_request"; "urgency"; "authority";
              "money_request"; "emotional"; "voice_pattern"].
Proof.
  rewrite ruleBasedScamAnalysis_closed. cbv zeta. cbn [indicators].
  rewrite map_app, map_map. reflexivity.
Qed.

End HookPaths.

(* ================================================================== *)
(** ** Invariants of the result, path by path *)
(* ================================================================== *)

(** C1, as the claim states it, fails on the AI path: the gateway's
    analysis is returned with the score it came with.  A message whose
    analysis has [riskScore] 150 is answered 200 with [riskScore] 150. *)
Lemma C1_ai_score_above_100 :
  let r := Edge.respond JS.JSON_parse (Some "key") Examples.request
             (Examples.gateway Examples.score_150) in
  Edge.status r = 200
  /\ Edge.body_prop (Edge.body r) "riskScore" = Some (JS.JNum 150)
  /\ (100 < 150)%Q.
Proof.
  vm_compute. repeat split.
Qed.

(** C1, amended.  The score of a result lies between 0 and 100 on the
    rule-based paths (the edge function without a key, the client scorer)
    and is 50 on the neutral fallback; on the AI path the answer carries
    the [riskScore] of the analysis taken from the gateway's message,
    unchanged. *)
Theorem C1_score_range_by_path :
  (forall text, 0 <= Edge.riskScore (Edge.ruleBased text) <= 100)
  /\ (forall transcript language,
         0 <= Hook.riskScore (Hook.ruleBasedScamAnalysis transcript language)
           <= 100)
  /\ (forall parse key req outcome,
         Edge.no_key key = true ->
         Edge.method req <> "OPTIONS" ->
         Edge.status (Edge.respond parse key req outcome) = 200 ->
         exists z,
           Edge.body_prop (Edge.body (Edge.respond parse key req outcome))
             "riskScore" = Some (JS.JNum (inject_Z z))
           /\ 0 <= z <= 100)
  /\ (forall parse key req outcome,
         Edge.no_key key = false ->
         Edge.method req <> "OPTIONS" ->
         Edge.status (Edge.respond parse key req outcome) = 200 ->
         exists content,
           Edge.message_of parse outcome content
           /\ Edge.body_prop (Edge.body (Edge.respond parse key req outcome))
                "riskScore"
              = JS.prop (Edge.parse_analysis parse content) "riskScore")
  /\ (forall parse content e,
         Edge.decoded parse content = JS.Throw e ->
         JS.prop (Edge.parse_analysis parse content) "riskScore"
         = Some (JS.JNum 50)).
Proof.
  split; [exact ruleBased_score_range|].
  split; [exact hook_score_range|].
  split; [|split].
  - intros parse key req outcome K M S.
    destruct (respond_no_key parse key req outcome K M S) as [t ->].
    exists (Edge.riskScore (Edge.ruleBased (Edge.normalize t))).
    split; [reflexivity | apply ruleBased_score_range].
  - intros parse key req outcome K M S.
    destruct (ai_answer parse key req outcome K M S)
      as (content & items & Hm & Hk & _).
    exists content. split; [assumption | apply Hk; discriminate].
  - intros parse content e H.
    apply (neutral_fields parse content e H).
Qed.

(** C1 at work: without a key the example request is answered with a
    score in range; with a key and a gateway message that is not JSON the
    score is 50. *)
Lemma C1_score_range_witness :
  (exists z,
      Edge.body_prop
        (Edge.body (Edge.respond JS.JSON_parse None Examples.request
                      Edge.FetchRejected)) "riskScore"
      = Some (JS.JNum (inject_Z z))
      /\ 0 <= z <= 100)
  /\ JS.prop (Edge.parse_analysis JS.JSON_parse Examples.prose) "riskScore"
     = Some (JS.JNum 50).
Proof.
  destruct C1_score_range_by_path as (_ & _ & Hrule & _ & Hneutral).
  split.
  - apply Hrule; [reflexivity | discriminate | reflexivity].
  - apply (Hneutral JS.JSON_parse Examples.prose JS.SyntaxError).
    reflexivity.
Defined.

(** C2, as the claim states it, fails on the AI path: entries of the
    gateway's analysis are kept as they are, so an analysis naming urgency
    twice is answered with eight entries, two of them urgency. *)
Lemma C2_ai_duplicate_ids :
  Edge.body_ids
    (Edge.body (Edge.respond JS.JSON_parse (Some "key") Examples.request
                  (Examples.gateway Examples.urgency_twice)))
  = map (fun i => Some (JS.JStr i))
        ["urgency"; "urgency"; "impersonation"; "emotional"; "authority";
         "otp_request"; "money_request"; "voice_pattern"].
Proof.
  vm_compute. reflexivity.
Qed.

Ltac distinct :=
  repeat constructor; simpl; intros H;
  repeat (destruct H as [H|H]; [discriminate H|]); exact H.

Lemma canonical_types :
  canonical_once Edge.indicatorTypes Edge.indicatorTypes.
Proof.
  split; [reflexivity|]. split; [distinct | tauto].
Qed.

Lemma canonical_body_ids :
  canonical_once Edge.canonical_ids Edge.canonical_ids.
Proof.
  split; [reflexivity|]. split; [distinct | tauto].
Qed.

Lemma canonical_hook_ids :
  canonical_once (map Some Edge.indicatorTypes)
    (map Some ["impersonation"; "otp_request"; "urgency"; "authority";
               "money_request"; "emotional"; "voice_pattern"]).
Proof.
  split; [reflexivity|]. split; [distinct | simpl; tauto].
Qed.

Lemma has_id_found ids ty :
  Edge.has_id ids ty = true -> In (Some (JS.JStr ty)) ids.
Proof.
  unfold Edge.has_id. intros H.
  apply existsb_exists in H as (x & Hin & Hx).
  destruct x as [[| | |s| |]|]; try discriminate.
  apply String.eqb_eq in Hx. now subst.
Qed.

Lemma backfill_entry_ids (l : list string) :
  map (fun i => JS.prop i "id") (map Edge.backfill_entry l)
  = map (fun ty => Some (JS.JStr ty)) l.
Proof.
  rewrite map_map. reflexivity.
Qed.

(** After the backfill every canonical id is carried by some entry. *)
Lemma backfilled_ids_complete (items : list JS.JSValue) (ty : string) :
  In ty Edge.indicatorTypes ->
  In (Some (JS.JStr ty))
     (map (fun i => JS.prop i "id") items
      ++ map (fun ty => Some (JS.JStr ty)) (Edge.missing items)).
Proof.
  intros Hin. apply in_or_app.
  destruct (Edge.has_id (map (fun i => JS.prop i "id") items) ty) eqn:E.
  - left. now apply has_id_found.
  - right. apply (in_map (fun t => Some (JS.JStr t))). unfold Edge.missing.
    apply filter_In. split; [assumption | now rewrite E].
Qed.

(** C2, amended.  The rule-based paths (the edge function without a key,
    the client scorer) and the neutral fallback return exactly seven
    entries, one for each canonical id.  On the AI path the answer keeps
    the entries of the gateway's analysis as they came and appends an entry
    for each canonical id none of them carries, so that every canonical id
    occurs at least once. *)
Theorem C2_indicator_ids_by_path :
  (forall text,
      canonical_once Edge.indicatorTypes
        (map Edge.id (Edge.indicators (Edge.ruleBased text))))
  /\ (forall transcript language,
         canonical_once (map Some Edge.indicatorTypes)
           (map Hook.id
              (Hook.indicators
                 (Hook.ruleBasedScamAnalysis transcript language))))
  /\ (forall parse key req outcome,
         Edge.no_key key = true ->
         Edge.method req <> "OPTIONS" ->
         Edge.status (Edge.respond parse key req outcome) = 200 ->
         canonical_once Edge.canonical_ids
           (Edge.body_ids (Edge.body (Edge.respond parse key req outcome))))
  /\ (forall parse key req outcome,
         Edge.no_key key = false ->
         Edge.method req <> "OPTIONS" ->
         Edge.status (Edge.respond parse key req outcome) = 200 ->
         exists content items,
           Edge.message_of parse outcome content
           /\ JS.prop (Edge.parse_analysis parse content) "indicators"
              = Some (JS.JArr items)
           /\ Edge.body_prop
                (Edge.body (Edge.respond parse key req outcome)) "indicators"
              = Some
                  (JS.JArr
                     (items
                      ++ map (fun ty =>
                                JS.JObj [("id", JS.JStr ty);
                                         ("type", JS.JStr ty);
                                         ("detected", JS.JBool false);
                                         ("confidence", JS.JNum 0)])
                           (Edge.missing items))%list)
           /\ Edge.body_ids (Edge.body (Edge.respond parse key req outcome))
              = (map (fun i => JS.prop i "id") items
                 ++ map (fun ty => Some (JS.JStr ty)) (Edge.missing items))%list
           /\ forall ty,
                In ty Edge.indicatorTypes ->
                In (Some (JS.JStr ty))
                   (Edge.body_ids
                      (Edge.body (Edge.respond parse key req outcome))))
  /\ (forall parse content e,
         Edge.decoded parse content = JS.Throw e ->
         Edge.backfill (Edge.parse_analysis parse content)
         = JS.Ok Edge.neutral_result
         /\ JS.prop Edge.neutral_result "indicators"
            = Some
                (JS.JArr
                   (map (fun ty =>
                           JS.JObj [("id", JS.JStr ty);
                                    ("type", JS.JStr ty);
                                    ("detected", JS.JBool false);
                                    ("confidence", JS.JNum 0)])
                      ["impersonation"; "urgency"; "emotional"; "authority";
                       "otp_request"; "money_request"; "voice_pattern"]))
         /\ canonical_once Edge.canonical_ids
              (Edge.body_ids (Edge.Json Edge.neutral_result))).
Proof.
  split; [|split; [|split; [|split]]].
  - intros text. rewrite ruleBased_ids. exact canonical_types.
  - intros transcript language. rewrite hook_ids. exact canonical_hook_ids.
  - intros parse key req outcome K M S.
    destruct (respond_no_key parse key req outcome K M S) as [t ->].
    cbn [Edge.body]. rewrite result_json_ids.
    rewrite <- (map_map Edge.id (fun i => Some (JS.JStr i))).
    rewrite ruleBased_ids. exact canonical_body_ids.
  - intros parse key req outcome K M S.
    destruct (ai_answer parse key req outcome K M S)
      as (content & items & Hm & _ & I1 & I2).
    exists content, items.
    assert (Edge.body_ids (Edge.body (Edge.respond parse key req outcome))
            = (map (fun i => JS.prop i "id") items
               ++ map (fun ty => Some (JS.JStr ty)) (Edge.missing items))%list)
      as E.
    { unfold Edge.body_ids. rewrite I2.
      now rewrite map_app, backfill_entry_ids. }
    split; [exact Hm|]. split; [exact I1|]. split; [exact I2|].
    split; [exact E|].
    intros ty Hin. rewrite E. now apply backfilled_ids_complete.
  - intros parse content e H.
    rewrite (parse_analysis_fallback parse content e H).
    split; [exact backfill_neutral|].
    split; [reflexivity | exact canonical_body_ids].
Qed.

(** C2 at work: the example request without a key, and the neutral
    fallback for a gateway message that is not JSON. *)
Lemma C2_indicator_ids_witness :
  canonical_once Edge.canonical_ids
    (Edge.body_ids
       (Edge.body (Edge.respond JS.JSON_parse None Examples.request
                     Edge.FetchRejected)))
  /\ Edge.backfill (Edge.parse_analysis JS.JSON_parse Examples.prose)
     = JS.Ok Edge.neutral_result.
Proof.
  destruct C2_indicator_ids_by_path as (_ & _ & Hrule & _ & Hneutral).
  split.
  - apply Hrule; [reflexivity | discriminate | reflexivity].
  - apply (proj1 (Hneutral JS.JSON_parse Examples.prose JS.SyntaxError
                    eq_refl)).
Defined.

(** C3, as the claim states it, fails on the AI path: no floor is applied
    to the gateway's analysis.  An analysis with level high and score 70,
    the lowest score the prompt asks for on high risk, is answered 200 as
    it is. *)
Lemma C3_ai_high_below_75 :
  let r := Edge.respond JS.JSON_parse (Some "key") Examples.request
             (Examples.gateway Examples.high_70) in
  Edge.status r = 200
  /\ Edge.body_prop (Edge.body r) "riskLevel" = Some (JS.JStr "high")
  /\ Edge.body_prop (Edge.body r) "riskScore" = Some (JS.JNum 70)
  /\ (70 < 75)%Q.
Proof.
  vm_compute. repeat split.
Qed.

(** C3, amended.  On the rule-based paths (the edge function without a
    key, the client scorer) a result of level high has a score of at least
    75; the neutral fallback is of level medium; on the AI path level and
    score are those of the analysis taken from the gateway's message,
    unchanged. *)
Theorem C3_high_floor_by_path :
  (forall text,
      Edge.riskLevel (Edge.ruleBased text) = "high" ->
      75 <= Edge.riskScore (Edge.ruleBased text))
  /\ (forall transcript language,
         Hook.riskLevel (Hook.ruleBasedScamAnalysis transcript language)
         = Hook.high ->
         75 <= Hook.riskScore (Hook.ruleBasedScamAnalysis transcript language))
  /\ (forall parse key req outcome,
         Edge.no_key key = true ->
         Edge.method req <> "OPTIONS" ->
         Edge.status (Edge.respond parse key req outcome) = 200 ->
         Edge.body_prop (Edge.body (Edge.respond parse key req outcome))
           "riskLevel" = Some (JS.JStr "high") ->
         exists z,
           Edge.body_prop (Edge.body (Edge.respond parse key req outcome))
             "riskScore" = Some (JS.JNum (inject_Z z))
           /\ 75 <= z)
  /\ (forall parse key req outcome,
         Edge.no_key key = false ->
         Edge.method req <> "OPTIONS" ->
         Edge.status (Edge.respond parse key req outcome) = 200 ->
         exists content,
           Edge.message_of parse outcome content
           /\ Edge.body_prop (Edge.body (Edge.respond parse key req outcome))
                "riskLevel"
              = JS.prop (Edge.parse_analysis parse content) "riskLevel"
           /\ Edge.body_prop (Edge.body (Edge.respond parse key req outcome))
                "riskScore"
              = JS.prop (Edge.parse_analysis parse content) "riskScore")
  /\ (forall parse content e,
         Edge.decoded parse content = JS.Throw e ->
         JS.prop (Edge.parse_analysis parse content) "riskLevel"
         = Some (JS.JStr "medium")).
Proof.
  split; [exact ruleBased_floor|].
  split; [exact hook_floor|].
  split; [|split].
  - intros parse key req outcome K M S.
    destruct (respond_no_key parse key req outcome K M S) as [t ->].
    cbn [Edge.body]. intros L.
    exists (Edge.riskScore (Edge.ruleBased (Edge.normalize t))).
    split; [reflexivity|].
    apply ruleBased_floor. rewrite result_json_level in L. congruence.
  - intros parse key req outcome K M S.
    destruct (ai_answer parse key req outcome K M S)
      as (content & items & Hm & Hk & _).
    exists content. repeat split; try assumption; apply Hk; discriminate.
  - intros parse content e H.
    apply (neutral_fields parse content e H).
Qed.

(** C3 at work: the example request, high in both scorers, scores 75 or
    more. *)
Lemma C3_high_floor_witness :
  75 <= Edge.riskScore
          (Edge.ruleBased (Edge.normalize "Share your OTP immediately"))
  /\ 75 <= Hook.riskScore
             (Hook.ruleBasedScamAnalysis "Share your OTP immediately" "en").
Proof.
  destruct C3_high_floor_by_path as (He & Hh & _).
  split.
  - apply He. reflexivity.
  - apply Hh. reflexivity.
Defined.

(* ================================================================== *)
(** ** Error handling at the endpoint *)
(* ================================================================== *)

(** C4, as the claim states it, fails for a message that decodes to a
    value outside the result model: nothing validates the decoded value,
    and it is returned as it is.  An analysis with the unknown level
    "severe" and the string "ninety" for a score is answered 200 with that
    level and that score, not with the neutral default. *)
Lemma C4_off_schema_is_returned :
  let r := Edge.respond JS.JSON_parse (Some "key") Examples.request
             (Examples.gateway Examples.off_schema) in
  Edge.status r = 200
  /\ Edge.body_prop (Edge.body r) "riskLevel" = Some (JS.JStr "severe")
  /\ Edge.body_prop (Edge.body r) "riskScore" = Some (JS.JStr "ninety").
Proof.
  vm_compute. repeat split.
Qed.

(** C4, amended.  When the gateway's message is a non-empty string that
    fails JSON decoding (after the code fence, if any, is stripped), the
    endpoint answers 200 with the neutral default: level medium, score 50,
    the seven canonical indicators backfilled as not detected, and the
    guidance "Unable to fully analyze. Please be cautious.".  When the message decodes, the decoded value is
    not validated: if the backfill goes through, the endpoint answers 200
    with the decoded value and its backfilled indicators. *)
Theorem C4_undecodable_message_gets_neutral_default :
  forall parse key req transcript language k outcome content,
    Edge.serve parse key req = Edge.Fetch transcript language k ->
    Edge.message_of parse outcome content ->
    (forall e,
        Edge.decoded parse content = JS.Throw e ->
        k outcome = Edge.mkResponse 200 (Edge.Json Edge.neutral_result)
        /\ Edge.respond parse key req outcome
           = Edge.mkResponse 200 (Edge.Json Edge.neutral_result))
    /\ (forall v a,
           Edge.decoded parse content = JS.Ok v ->
           Edge.backfill v = JS.Ok a ->
           Edge.respond parse key req outcome
           = Edge.mkResponse 200 (Edge.Json a)).
Proof.
  intros parse key req transcript language k outcome content S Hm.
  destruct (serve_fetch parse key req transcript language k S) as [_ ->].
  unfold Edge.respond. rewrite S.
  rewrite (answer_to_message parse outcome content Hm).
  split.
  - intros e D. rewrite (parse_analysis_fallback parse content e D).
    split; reflexivity.
  - intros v a D B. rewrite (parse_analysis_decoded parse content v D).
    rewrite B. reflexivity.
Qed.

(** C4 at work: the gateway answers the example request in prose. *)
Lemma C4_neutral_default_witness :
  Edge.respond JS.JSON_parse (Some "key") Examples.request
    (Examples.gateway Examples.prose)
  = Edge.mkResponse 200 (Edge.Json Edge.neutral_result).
Proof.
  refine (proj2
            (proj1
               (C4_undecodable_message_gets_neutral_default
                  JS.JSON_parse (Some "key") Examples.request
                  "Share your OTP immediately" (JS.JStr "en") _
                  (Examples.gateway Examples.prose) Examples.prose
                  eq_refl _)
               JS.SyntaxError eq_refl)).
  eexists. eexists. eexists.
  split; [reflexivity|]. split; [lia|]. split; [reflexivity|].
  split; [reflexivity | discriminate].
Defined.

(** C8, as the claim states it, fails for a request whose body cannot be
    destructured: a body that is the JSON value [null] and an empty body
    carry no transcript, and are answered 500 by the catch-all handler,
    [req.json()] or the destructuring having thrown before the check of
    line 34. *)
Lemma C8_unreadable_body_is_500 :
  Edge.serve JS.JSON_parse None (Edge.mkRequest "POST" "null")
  = Edge.Done (Edge.mkResponse 500 (Edge.PlatformError JS.TypeError))
  /\ Edge.serve JS.JSON_parse None (Edge.mkRequest "POST" "")
     = Edge.Done (Edge.mkResponse 500 (Edge.PlatformError JS.SyntaxError)).
Proof.
  vm_compute. split; reflexivity.
Qed.

(** C8, amended.  A request whose body decodes to a JSON value other than
    [null] and has no [transcript], or an empty one, or one made of white
    space only, is answered 400 with [{error: "No transcript provided"}],
    for every setting of the key; the handler answers at once, without
    scoring and without calling the gateway. *)
Theorem C8_missing_transcript_is_400 :
  forall parse key req v,
    Edge.method req <> "OPTIONS" ->
    parse (Edge.req_body req) = Some v ->
    v <> JS.JNull ->
    (JS.prop v "transcript" = None
     \/ exists s, JS.prop v "transcript" = Some (JS.JStr s) /\ JS.trim s = "") ->
    Edge.serve parse key req
    = Edge.Done
        (Edge.mkResponse 400
           (Edge.Json (JS.JObj [("error", JS.JStr "No transcript provided")]))).
Proof.
  intros parse key req v M P N T.
  unfold Edge.serve.
  destruct (String.eqb_spec (Edge.method req) "OPTIONS"); [contradiction|].
  unfold Edge.decode. rewrite P. simpl JS.bind.
  assert (Edge.destructure v
          = JS.Ok (JS.prop v "transcript",
                   match JS.prop v "language" with
                   | Some l => l
                   | None => JS.JStr "en"
                   end)) as ->
    by (destruct v; try reflexivity; contradiction).
  simpl JS.bind. cbn [fst snd].
  assert (Edge.provided (JS.prop v "transcript") = JS.Ok None) as ->.
  { destruct T as [-> | (s & -> & E)]; [reflexivity|].
    unfold Edge.provided. simpl.
    destruct (String.eqb_spec s ""); simpl; [reflexivity|].
    rewrite E. reflexivity. }
  reflexivity.
Qed.

(** C8 at work: a body without a transcript, and a transcript of three
    spaces. *)
Lemma C8_missing_transcript_witness :
  Edge.serve JS.JSON_parse (Some "key") Examples.no_transcript
  = Edge.Done
      (Edge.mkResponse 400
         (Edge.Json (JS.JObj [("error", JS.JStr "No transcript provided")])))
  /\ Edge.serve JS.JSON_parse None Examples.blank_transcript
     = Edge.Done
         (Edge.mkResponse 400
            (Edge.Json (JS.JObj [("error", JS.JStr "No transcript provided")]))).
Proof.
  split.
  - apply (C8_missing_transcript_is_400 JS.JSON_parse (Some "key")
             Examples.no_transcript (JS.JObj [])).
    + discriminate.
    + reflexivity.
    + discriminate.
    + left. reflexivity.
  - apply (C8_missing_transcript_is_400 JS.JSON_parse None
             Examples.blank_transcript
             (JS.JObj [("transcript", JS.JStr "   ")])).
    + discriminate.
    + reflexivity.
    + discriminate.
    + right. exists "   ". split; reflexivity.
Defined.

(* ================================================================== *)
(** ** The scheduler *)
(* ================================================================== *)

Section Scheduler.

Import Hook.









Lemma run_cons st e es :
  run st (e :: es)
  = (fst (run (fst (step st e)) es),
     (snd (step st e) ++ snd (run (fst (step st e)) es))%list).
Proof.
  simpl. destruct (step st e) as [st1 a1]. simpl.
  destruct (run st1 es) as [st2 a2]. reflexivity.
Qed.


Lemma in_flight_app a b : in_flight (a ++ b) = in_flight a + in_flight b.
Proof.
  induction a as [|[t|r|r] a IH]; simpl; lia.
Qed.












End Scheduler.




(** C6, as the claim states it, fails on the debounce path, which has no
    minimum of 15: [updateTranscript] arms the debounce from a trimmed
    length of 10, and its expiry dispatches whatever is longer than what
    was last analysed.  A transcript that has grown from nothing to
    fourteen code units is dispatched when the debounce expires. *)
Lemma C6_debounce_dispatches_fourteen :
  Hook.dispatched (Hook.trace "en" Scenarios.pause_at_fourteen)
  = [Scenarios.fourteen]
  /\ String.length Scenarios.fourteen = 14%nat
  /\ option_map Hook.kind
       (Hook.find_timer 2
          (fst (Hook.run (Hook.initial "en")
                  [Hook.StartAnalysis "";
                   Hook.UpdateTranscript Scenarios.fourteen])))
     = Some Hook.Debounce.
Proof.
  vm_compute. repeat split.
Qed.

Lemma runIntervalCheck_dispatched lang st t :
  In t (Hook.dispatched (snd (Hook.runIntervalCheck lang st))) ->
  t = Hook.transcriptRef st
  /\ (Hook.lastAnalyzedLengthRef st < String.length t)%nat
  /\ (15 <= String.length t)%nat.
Proof.
  unfold Hook.runIntervalCheck. cbv zeta.
  destruct (_ && _)%bool eqn:C; [|intros []].
  apply andb_true_iff in C as [C1 C2].
  apply Nat.leb_le in C1. apply Nat.ltb_lt in C2.
  intros [<-|[]]. repeat split; assumption.
Qed.

Lemma runIntervalCheck_fires lang st :
  (15 <= String.length (Hook.transcriptRef st))%nat ->
  (Hook.lastAnalyzedLengthRef st < String.length (Hook.transcriptRef st))%nat ->
  Hook.dispatched (snd (Hook.runIntervalCheck lang st))
  = [Hook.transcriptRef st].
Proof.
  intros L15 Lnew. unfold Hook.runIntervalCheck. cbv zeta.
  replace (_ && _)%bool with true; [reflexivity|].
  symmetry. apply andb_true_iff. split.
  - now apply Nat.leb_le.
  - now apply Nat.ltb_lt.
Qed.

Lemma debounceFires_dispatched lang st t :
  In t (Hook.dispatched (snd (Hook.debounceFires lang st))) ->
  t = Hook.transcriptRef st
  /\ (Hook.lastAnalyzedLengthRef st < String.length t)%nat.
Proof.
  unfold Hook.debounceFires. cbv zeta.
  cbn [Hook.transcriptRef Hook.lastAnalyzedLengthRef].
  destruct (_ <? _)%nat eqn:C; [|intros []].
  apply Nat.ltb_lt in C.
  intros [<-|[]]. split; [reflexivity | assumption].
Qed.

Lemma debounceFires_fires lang st :
  (Hook.lastAnalyzedLengthRef st < String.length (Hook.transcriptRef st))%nat ->
  Hook.dispatched (snd (Hook.debounceFires lang st)) = [Hook.transcriptRef st].
Proof.
  intros Lnew. unfold Hook.debounceFires. cbv zeta.
  cbn [Hook.transcriptRef Hook.lastAnalyzedLengthRef].
  apply Nat.ltb_lt in Lnew. rewrite Lnew. reflexivity.
Qed.

(** C6, amended.  A timer callback dispatches nothing but the current
    transcript, and only when it is strictly longer than the last-analysed
    length.  The warm-up and recurring checks require in addition a length
    of at least 15, and dispatch whenever both conditions hold; the expiry
    of the debounce requires nothing more, and dispatches whenever the
    transcript is longer than what was last analysed.  So when a transcript
    grows from nothing to fourteen code units the warm-up and recurring
    checks dispatch nothing, and once it has grown to sixteen the next
    recurring check dispatches it. *)
Theorem C6_dispatch_conditions :
  (forall st i t,
      In t (Hook.dispatched (snd (Hook.fire i st))) ->
      t = Hook.transcriptRef (Hook.drain st)
      /\ (Hook.lastAnalyzedLengthRef (Hook.drain st) < String.length t)%nat
      /\ exists tm,
           Hook.find_timer i (Hook.drain st) = Some tm
           /\ (Hook.kind tm = Hook.Debounce \/ (15 <= String.length t)%nat))
  /\ (forall st i tm,
         Hook.find_timer i (Hook.drain st) = Some tm ->
         Hook.kind tm = Hook.FirstCheck \/ Hook.kind tm = Hook.Interval ->
         (15 <= String.length (Hook.transcriptRef (Hook.drain st)))%nat ->
         (Hook.lastAnalyzedLengthRef (Hook.drain st)
          < String.length (Hook.transcriptRef (Hook.drain st)))%nat ->
         Hook.dispatched (snd (Hook.fire i st))
         = [Hook.transcriptRef (Hook.drain st)])
  /\ (forall st i tm,
         Hook.find_timer i (Hook.drain st) = Some tm ->
         Hook.kind tm = Hook.Debounce ->
         (Hook.lastAnalyzedLengthRef (Hook.drain st)
          < String.length (Hook.transcriptRef (Hook.drain st)))%nat ->
         Hook.dispatched (snd (Hook.fire i st))
         = [Hook.transcriptRef (Hook.drain st)])
  /\ Hook.dispatched (Hook.trace "en" Scenarios.checks_at_fourteen) = []
  /\ Hook.dispatched (Hook.trace "en" Scenarios.check_at_sixteen)
     = [Scenarios.sixteen].
Proof.
  split; [|split; [|split; [|split]]].
  - intros st i t. unfold Hook.fire. cbv zeta.
    destruct (Hook.find_timer i (Hook.drain st)) as [tm|] eqn:F;
      [|intros []].
    destruct (Hook.kind tm) eqn:K; cbn [Hook.one_shot]; intros H.
    + apply runIntervalCheck_dispatched in H as (E & L & L15).
      repeat split; try assumption. exists tm. split; [reflexivity | now right].
    + apply runIntervalCheck_dispatched in H as (E & L & L15).
      repeat split; try assumption. exists tm. split; [reflexivity | now right].
    + apply debounceFires_dispatched in H as (E & L).
      repeat split; try assumption. exists tm. split; [reflexivity | now left].
    + destruct H.
  - intros st i tm F K L15 Lnew. unfold Hook.fire. cbv zeta. rewrite F.
    destruct K as [K|K]; rewrite K; cbn [Hook.one_shot].
    + now apply (runIntervalCheck_fires (Hook.captured tm)
                   (Hook.set_timers (Hook.drain st)
                      (Hook.without i (Hook.timers (Hook.drain st))))).
    + now apply runIntervalCheck_fires.
  - intros st i tm F K Lnew. unfold Hook.fire. cbv zeta. rewrite F, K.
    cbn [Hook.one_shot].
    now apply (debounceFires_fires (Hook.captured tm)
                 (Hook.set_timers (Hook.drain st)
                    (Hook.without i (Hook.timers (Hook.drain st))))).
  - vm_compute. reflexivity.
  - vm_compute. reflexivity.
Qed.

(** C6 at work: in the state reached when the transcript has grown to
    sixteen code units, the recurring timer is pending and its callback
    dispatches the transcript. *)
Lemma C6_dispatch_conditions_witness :
  Hook.dispatched (snd (Hook.fire 1 Scenarios.at_sixteen))
  = [Hook.transcriptRef (Hook.drain Scenarios.at_sixteen)]
  /\ Hook.transcriptRef (Hook.drain Scenarios.at_sixteen) = Scenarios.sixteen.
Proof.
  split.
  - apply (proj1 (proj2 C6_dispatch_conditions) Scenarios.at_sixteen 1%nat
             (Hook.mkTimer 1 Hook.Interval "en")).
    + vm_compute. reflexivity.
    + right. reflexivity.
    + vm_compute. lia.
    + vm_compute. lia.
  - vm_compute. reflexivity.
Defined.

(* ================================================================== *)
(** ** Further properties of the edge function *)
(* ================================================================== *)

Section EdgeAnswers.

Import JS Edge.

Variable parse : string -> option JSValue.

Lemma after_fetch_status outcome :
  In (status (catch500 (after_fetch parse outcome))) [200; 402; 429; 500].
Proof.
  unfold after_fetch. destruct outcome as [|st text]; simpl; [tauto|].
  destruct ((200 <=? st) && (st <=? 299)).
  - destruct (on_ai_response parse text) as [r|e] eqn:A; simpl; [|tauto].
    apply on_ai_response_ok in A as (ai & c & a & _ & _ & _ & _ & ->).
    simpl; tauto.
  - destruct (st =? 429); simpl; [tauto|].
    destruct (st =? 402); simpl; tauto.
Qed.




Lemma destructure_value v :
  v <> JNull ->
  destructure v
  = Ok (prop v "transcript",
        match prop v "language" with
        | Some l => l
        | None => JStr "en"
        end).
Proof.
  destruct v; intros N; try reflexivity. contradiction.
Qed.

Lemma map_ids_null items :
  In JNull items -> map_ids items = Throw TypeError.
Proof.
  induction items as [|i items IH]; simpl; intros H; [contradiction|].
  destruct H as [->|H]; [reflexivity|].
  rewrite (IH H). destruct i; reflexivity.
Qed.

Lemma map_ids_values items :
  Forall (fun i => i <> JNull) items ->
  map_ids items = Ok (map (fun i => prop i "id") items).
Proof.
  induction 1 as [|i items N F IH]; simpl; [reflexivity|].
  rewrite IH. destruct i; try reflexivity. contradiction.
Qed.

Lemma backfill_throws v :
  (forall items, prop v "indicators" = Some (JArr items) -> In JNull items) ->
  backfill v = Throw TypeError.
Proof.
  intros H. unfold backfill.
  destruct v as [| | | | |fs]; try reflexivity.
  simpl in H.
  destruct (lookup "indicators" fs) as [[| | | |items|]|]; try reflexivity.
  rewrite (map_ids_null items (H items eq_refl)). reflexivity.
Qed.

Lemma found_has_id ids ty :
  In (Some (JStr ty)) ids -> has_id ids ty = true.
Proof.
  intros H. unfold has_id. apply existsb_exists.
  exists (Some (JStr ty)). split; [assumption | apply String.eqb_refl].
Qed.

Lemma missing_nothing items :
  (forall ty, In ty indicatorTypes ->
              In (Some (JStr ty)) (map (fun i => prop i "id") items)) ->
  missing items = [].
Proof.
  intros H. unfold missing.
  induction indicatorTypes as [|ty l IH]; simpl; [reflexivity|].
  rewrite (found_has_id _ ty (H ty (or_introl eq_refl))). simpl.
  apply IH. intros t Ht. apply H. now right.
Qed.

Lemma set_field_twice k v w fs :
  set_field k v (set_field k w fs) = set_field k v fs.
Proof.
  induction fs as [|[k' v'] fs IH]; simpl.
  - now rewrite String.eqb_refl.
  - destruct (String.eqb_spec k' k) as [->|N]; simpl.
    + now rewrite String.eqb_refl.
    + destruct (String.eqb_spec k' k); [contradiction | now rewrite IH].
Qed.

End EdgeAnswers.

(** X1.  Whatever the request, the key and the gateway's behaviour, the
    endpoint answers with one of five statuses: 200, 400, 402, 429 or
    500. *)
Theorem X1_status_is_one_of_five :
  forall parse key req outcome,
    In (Edge.status (Edge.respond parse key req outcome))
       [200; 400; 402; 429; 500].
Proof.
  intros parse key req outcome. unfold Edge.respond.
  destruct (serve_cases parse key req)
    as [[-> _]|[[e ->]|[->|[(t & _ & ->)|(t & l & _ & ->)]]]];
    try (simpl; tauto).
  pose proof (after_fetch_status parse outcome) as H.
  simpl in H. simpl. tauto.
Qed.

(** X2.  Once the gateway is called, its failures are answered as
    follows, whatever the text it sent: a rejected fetch and a 2xx body
    that is not JSON with 500; status 429 with 429 and the rate-limit
    message; status 402 with 402 and the usage-limit message; any other
    status outside 200-299 with 500 and "AI gateway error: " followed by
    the status. *)
Theorem X2_gateway_failures :
  forall parse key req transcript language k,
    Edge.serve parse key req = Edge.Fetch transcript language k ->
    k Edge.FetchRejected
    = Edge.mkResponse 500 (Edge.PlatformError JS.NetworkError)
    /\ (forall st text,
           200 <= st <= 299 -> parse text = None ->
           k (Edge.FetchResponse st text)
           = Edge.mkResponse 500 (Edge.PlatformError JS.SyntaxError))
    /\ (forall text,
           k (Edge.FetchResponse 429 text)
           = Edge.mkResponse 429
               (Edge.error_json
                  "Rate limit exceeded. Please try again in a moment."))
    /\ (forall text,
           k (Edge.FetchResponse 402 text)
           = Edge.mkResponse 402
               (Edge.error_json
                  "Usage limit reached. Please check your account."))
    /\ (forall st text,
           st < 200 \/ 299 < st -> st <> 429 -> st <> 402 ->
           k (Edge.FetchResponse st text)
           = Edge.mkResponse 500
               (Edge.error_json ("AI gateway error: " ++ Edge.decimal st))).
Proof.
  intros parse key req transcript language k S.
  destruct (serve_fetch parse key req transcript language k S) as [_ ->].
  split; [reflexivity|]. split; [|split; [reflexivity|split; [reflexivity|]]].
  - intros st text R P. unfold Edge.after_fetch.
    replace ((200 <=? st) && (st <=? 299)) with true
      by (symmetry; apply andb_true_iff; split; apply Z.leb_le; lia).
    unfold Edge.on_ai_response, Edge.decode. rewrite P. reflexivity.
  - intros st text R N1 N2. unfold Edge.after_fetch.
    replace ((200 <=? st) && (st <=? 299)) with false.
    + destruct (Z.eqb_spec st 429); [contradiction|].
      destruct (Z.eqb_spec st 402); [contradiction | reflexivity].
    + symmetry. apply andb_false_iff.
      destruct R; [left | right]; apply Z.leb_gt; lia.
Qed.

(** X2 at work: the gateway answers the example request with 503. *)
Lemma X2_gateway_failures_witness :
  Edge.respond JS.JSON_parse (Some "key") Examples.request
    (Edge.FetchResponse 503 "Service Unavailable")
  = Edge.mkResponse 500 (Edge.error_json "AI gateway error: 503").
Proof.
  unfold Edge.respond.
  destruct (Edge.serve JS.JSON_parse (Some "key") Examples.request)
    as [r|t l k] eqn:S; [discriminate S|].
  apply (X2_gateway_failures JS.JSON_parse (Some "key") Examples.request
           t l k S).
  - right. lia.
  - discriminate.
  - discriminate.
Defined.



(** X4.  A request that is not a preflight and cannot be read is answered
    as follows, for every setting of the key: a body that is not JSON and
    a body that is [null] with 500; a [transcript] that is not a string
    with 400 "No transcript provided" when it is falsy ([null], [false],
    0) and with 500 when it is truthy (a number, [true], an array, an
    object), [trim] not being callable on it. *)
Theorem X4_unreadable_requests :
  forall parse key req,
    Edge.method req <> "OPTIONS" ->
    (parse (Edge.req_body req) = None ->
     Edge.serve parse key req
     = Edge.Done (Edge.mkResponse 500 (Edge.PlatformError JS.SyntaxError)))
    /\ (parse (Edge.req_body req) = Some JS.JNull ->
        Edge.serve parse key req
        = Edge.Done (Edge.mkResponse 500 (Edge.PlatformError JS.TypeError)))
    /\ (forall v x,
           parse (Edge.req_body req) = Some v ->
           JS.prop v "transcript" = Some x ->
           (forall s, x <> JS.JStr s) ->
           Edge.serve parse key req
           = Edge.Done
               (if JS.truthy (Some x)
                then Edge.mkResponse 500 (Edge.PlatformError JS.TypeError)
                else Edge.mkResponse 400
                       (Edge.error_json "No transcript provided"))).
Proof.
  intros parse key req M. unfold Edge.serve.
  destruct (String.eqb_spec (Edge.method req) "OPTIONS"); [contradiction|].
  unfold Edge.decode.
  split; [intros ->; reflexivity|]. split; [intros ->; reflexivity|].
  intros v x P T N. rewrite P. simpl JS.bind.
  assert (v <> JS.JNull) as NN by (intros ->; discriminate).
  rewrite (destructure_value v NN). simpl JS.bind. cbn [fst snd].
  rewrite T. unfold Edge.provided.
  destruct x as [| b | q | s | items | fs]; simpl.
  - reflexivity.
  - destruct b; reflexivity.
  - destruct (Qeq_bool q 0); reflexivity.
  - now contradiction (N s).
  - reflexivity.
  - reflexivity.
Qed.

(** X4 at work: a transcript that is the number 5. *)
Lemma X4_unreadable_requests_witness :
  Edge.serve JS.JSON_parse None
    (Edge.mkRequest "POST" (JS.dq "{'transcript':5}"))
  = Edge.Done (Edge.mkResponse 500 (Edge.PlatformError JS.TypeError)).
Proof.
  refine (proj2 (proj2
            (X4_unreadable_requests JS.JSON_parse None
               (Edge.mkRequest "POST" (JS.dq "{'transcript':5}")) _))
            (JS.JObj [("transcript", JS.JNum 5)]) (JS.JNum 5)
            eq_refl eq_refl _).
  - discriminate.
  - discriminate.
Defined.

(** X5.  When the gateway answers in the 2xx range with a JSON value in
    which [choices[0].message.content] is not a non-empty string (no
    choices, no message, an empty or a non-string content), the endpoint
    answers 500 with "AI did not return analysis"; nothing is decoded and
    no default is substituted. *)
Theorem X5_completion_without_content :
  forall parse key req transcript language k st text ai c,
    Edge.serve parse key req = Edge.Fetch transcript language k ->
    200 <= st <= 299 ->
    parse text = Some ai ->
    Edge.message_content ai = JS.Ok c ->
    (forall s, c = Some (JS.JStr s) -> s = "") ->
    k (Edge.FetchResponse st text)
    = Edge.mkResponse 500 (Edge.error_json "AI did not return analysis").
Proof.
  intros parse key req transcript language k st text ai c S R P C E.
  destruct (serve_fetch parse key req transcript language k S) as [_ ->].
  unfold Edge.after_fetch.
  replace ((200 <=? st) && (st <=? 299)) with true
    by (symmetry; apply andb_true_iff; split; apply Z.leb_le; lia).
  unfold Edge.on_ai_response, Edge.decode. rewrite P. simpl JS.bind.
  rewrite C. simpl JS.bind.
  destruct c as [[| | |s| |]|]; try reflexivity.
  rewrite (E s eq_refl). reflexivity.
Qed.

(** X5 at work: the gateway answers the example request with an empty
    list of choices. *)
Lemma X5_completion_without_content_witness :
  Edge.respond JS.JSON_parse (Some "key") Examples.request
    (Edge.FetchResponse 200 (JS.dq "{'choices':[]}"))
  = Edge.mkResponse 500 (Edge.error_json "AI did not return analysis").
Proof.
  unfold Edge.respond.
  destruct (Edge.serve JS.JSON_parse (Some "key") Examples.request)
    as [r|t l k] eqn:S; [discriminate S|].
  apply (X5_completion_without_content JS.JSON_parse (Some "key")
           Examples.request t l k 200 (JS.dq "{'choices':[]}")
           (JS.JObj [("choices", JS.JArr [])]) None S).
  - lia.
  - reflexivity.
  - reflexivity.
  - discriminate.
Defined.

(** X6.  When the gateway's message decodes to a value whose
    [indicators] is not an array, or is an array with a [null] entry, the
    endpoint answers 500: the backfill throws outside the inner
    [try]/[catch], so the neutral default is not used for it. *)
Theorem X6_indicators_not_an_array :
  forall parse key req transcript language k outcome content v,
    Edge.serve parse key req = Edge.Fetch transcript language k ->
    Edge.message_of parse outcome content ->
    Edge.decoded parse content = JS.Ok v ->
    (forall items,
        JS.prop v "indicators" = Some (JS.JArr items) -> In JS.JNull items) ->
    k outcome = Edge.mkResponse 500 (Edge.PlatformError JS.TypeError).
Proof.
  intros parse key req transcript language k outcome content v S Hm D H.
  destruct (serve_fetch parse key req transcript language k S) as [_ ->].
  rewrite (answer_to_message parse outcome content Hm).
  rewrite (parse_analysis_decoded parse content v D).
  rewrite (backfill_throws v H). reflexivity.
Qed.

(** X6 at work: the gateway's analysis of the example request has a level
    and a score and no [indicators]. *)
Lemma X6_indicators_not_an_array_witness :
  Edge.respond JS.JSON_parse (Some "key") Examples.request
    (Examples.gateway "{\'riskLevel\':\'high\',\'riskScore\':90}")
  = Edge.mkResponse 500 (Edge.PlatformError JS.TypeError).
Proof.
  unfold Edge.respond.
  destruct (Edge.serve JS.JSON_parse (Some "key") Examples.request)
    as [r|t l k] eqn:S; [discriminate S|].
  apply (X6_indicators_not_an_array JS.JSON_parse (Some "key")
           Examples.request t l k _
           (JS.dq "{'riskLevel':'high','riskScore':90}")
           (JS.JObj [("riskLevel", JS.JStr "high");
                     ("riskScore", JS.JNum 90)]) S).
  - eexists. eexists. eexists.
    split; [reflexivity|]. split; [lia|]. split; [reflexivity|].
    split; [reflexivity | discriminate].
  - reflexivity.
  - intros items. discriminate.
Defined.

(** X7.  Backfilling is idempotent and keeps what it finds: the entries
    of the analysis stay in front, in their order, and an analysis that has
    been backfilled is returned unchanged by a second backfill. *)
Theorem X7_backfill_idempotent :
  forall v a,
    Edge.backfill v = JS.Ok a ->
    Edge.backfill a = JS.Ok a
    /\ exists items added,
         JS.prop v "indicators" = Some (JS.JArr items)
         /\ JS.prop a "indicators" = Some (JS.JArr (items ++ added)).
Proof.
  intros v a B. split.
  - destruct (backfill_ok v a B) as (fs & items & -> & L & F & ->).
    unfold Edge.backfill. rewrite lookup_set_field_same.
    rewrite map_ids_values.
    + simpl JS.bind. unfold Edge.push_missing. rewrite fold_push.
      fold (Edge.missing
              (items ++ map Edge.backfill_entry (Edge.missing items))).
      rewrite (missing_nothing
                 (items ++ map Edge.backfill_entry (Edge.missing items))).
      * cbn [map]. rewrite app_nil_r, set_field_twice. reflexivity.
      * intros ty Hin. rewrite map_app, backfill_entry_ids.
        now apply backfilled_ids_complete.
    + apply Forall_app. split; [assumption|].
      apply Forall_forall. intros x Hx.
      apply in_map_iff in Hx as (ty & <- & _). discriminate.
  - destruct (backfill_indicators v a B) as (items & I1 & I2).
    now exists items, (map Edge.backfill_entry (Edge.missing items)).
Qed.

(** X7 at work: the safe defaults, backfilled, are returned unchanged by
    a second backfill. *)
Lemma X7_backfill_idempotent_witness :
  Edge.backfill Edge.neutral_result = JS.Ok Edge.neutral_result.
Proof.
  exact (proj1 (X7_backfill_idempotent Edge.neutral_default
                  Edge.neutral_result eq_refl)).
Defined.

(* ================================================================== *)
(** ** Stripping the code fence *)
(* ================================================================== *)

Section Fences.

Import JS Edge.

Lemma prefix_self_append s r : String.prefix s (s ++ r) = true.
Proof.
  induction s as [|c s IH]; simpl.
  - destruct r; reflexivity.
  - destruct (ascii_dec c c); [exact IH | contradiction].
Qed.

Lemma includes_prefix s kw :
  String.prefix kw s = true -> includes s kw = true.
Proof.
  intros H. destruct s; simpl in *; rewrite H; reflexivity.
Qed.

Lemma includes_inside pre kw rest : includes (pre ++ kw ++ rest) kw = true.
Proof.
  induction pre as [|c pre IH]; simpl.
  - apply includes_prefix, prefix_self_append.
  - rewrite IH. apply orb_true_r.
Qed.

Lemma split_go_skip sep x rest :
  split_go sep (String.length x) (x ++ rest) = split_go sep 0 rest.
Proof.
  induction x as [|c x IH]; simpl; [reflexivity | exact IH].
Qed.

Lemma split_go_nonempty sep s :
  forall k, exists h t, split_go sep k s = h :: t.
Proof.
  induction s as [|c s IH]; intros k; cbn [split_go].
  - now exists "", [].
  - destruct k as [|k]; [|apply IH].
    destruct (String.prefix sep (String c s)).
    + eexists; eexists; reflexivity.
    + destruct (IH 0%nat) as (h & t & ->). eexists; eexists; reflexivity.
Qed.

(** A separator at the head of the text closes an empty part. *)
Lemma split_go_separator c sep rest :
  split_go (String c sep) 0 (String c sep ++ rest)
  = "" :: split_go (String c sep) 0 rest.
Proof.
  pose proof (prefix_self_append (String c sep) rest) as P.
  simpl append in *. cbn [split_go]. rewrite P.
  f_equal. cbn [String.length]. rewrite Nat.sub_1_r. simpl Nat.pred.
  apply split_go_skip.
Qed.

Lemma prefix_cons a s1 b s2 :
  String.prefix (String a s1) (String b s2)
  = if ascii_dec a b then String.prefix s1 s2 else false.
Proof. reflexivity. Qed.

Lemma prefix_tick sep c s :
  (c =? "`")%char = false -> String.prefix (String "`" sep) (String c s) = false.
Proof.
  intros N. rewrite prefix_cons.
  destruct (ascii_dec "`" c) as [<-|]; [|reflexivity].
  rewrite Ascii.eqb_refl in N. discriminate N.
Qed.

(** Text without a backtick in front of [rest] lengthens its first
    part. *)
Lemma split_go_tickless sep pre rest h t :
  tickless pre = true ->
  split_go (String "`" sep) 0 rest = h :: t ->
  split_go (String "`" sep) 0 (pre ++ rest) = (pre ++ h) :: t.
Proof.
  intros T H. induction pre as [|c pre IH]; [exact H|].
  cbn [tickless] in T. apply andb_true_iff in T as [N T].
  apply negb_true_iff in N.
  simpl append. cbn [split_go]. rewrite (prefix_tick sep c _ N).
  rewrite (IH T). reflexivity.
Qed.

Lemma split_go_whole sep s :
  tickless s = true -> split_go (String "`" sep) 0 s = [s].
Proof.
  intros T.
  pose proof (split_go_tickless sep s "" "" [] T eq_refl) as H.
  now rewrite !append_nil_r in H.
Qed.

Lemma includes_tickless sep s :
  tickless s = true -> includes s (String "`" sep) = false.
Proof.
  induction s as [|c s IH]; intros T; [reflexivity|].
  cbn [tickless] in T.
  apply andb_true_iff in T as [N T]. apply negb_true_iff in N.
  cbn [includes]. rewrite (IH T), (prefix_tick sep c s N). reflexivity.
Qed.

(** The first part of what follows the closing fence, cut at the next
    opening fence, is empty or starts with the closing fence itself. *)
Lemma after_closing_fence post h t :
  tickless post = true ->
  split_go fence_json 0 (fence ++ post) = h :: t ->
  h = "" \/ h = fence ++ post.
Proof.
  intros T. unfold fence_json, fence.
  destruct (String.prefix "```json" ("```" ++ post)) eqn:P.
  - simpl append in *. cbn [split_go]. rewrite P.
    intros H. inversion H. now left.
  - assert (String.prefix "```json" ("``" ++ post) = false) as P2.
    { destruct post as [|c post]; [reflexivity|].
      cbn [tickless] in T. apply andb_true_iff in T as [N _].
      apply negb_true_iff in N. simpl append.
      rewrite prefix_cons. destruct (ascii_dec "`" "`"); [|reflexivity].
      rewrite prefix_cons. destruct (ascii_dec "`" "`"); [|reflexivity].
      apply (prefix_tick "json" c post N). }
    assert (String.prefix "```json" ("`" ++ post) = false) as P1.
    { destruct post as [|c post]; [reflexivity|].
      cbn [tickless] in T. apply andb_true_iff in T as [N _].
      apply negb_true_iff in N. simpl append.
      rewrite prefix_cons. destruct (ascii_dec "`" "`"); [|reflexivity].
      apply (prefix_tick "`json" c post N). }
    simpl append in *. cbn [split_go]. rewrite P.
    cbn [split_go]. rewrite P2. cbn [split_go]. rewrite P1.
    rewrite (split_go_whole "``json" post T).
    intros H. inversion H. now right.
Qed.

Lemma first_part_of_fenced body post :
  tickless body = true -> tickless post = true ->
  exists h t,
    split_go fence_json 0 (body ++ fence ++ post) = (body ++ h) :: t
    /\ (h = "" \/ h = fence ++ post).
Proof.
  intros Tb Tp.
  destruct (split_go_nonempty fence_json (fence ++ post) 0) as (h & t & H).
  exists h, t. split.
  - now apply (split_go_tickless "``json").
  - now apply (after_closing_fence post h t).
Qed.

Lemma first_part_before_fence body h :
  tickless body = true ->
  h = "" \/ (exists r, h = fence ++ r) ->
  exists t, split_go fence 0 (body ++ h) = body :: t.
Proof.
  intros Tb [->|[r ->]].
  - exists []. rewrite append_nil_r. now apply (split_go_whole "``").
  - destruct (split_go_nonempty fence r 0) as (h' & t' & H).
    exists (h' :: t').
    pose proof (split_go_tickless "``" body (fence ++ r) "" (h' :: t') Tb) as S.
    rewrite append_nil_r in S. apply S.
    unfold fence in *. rewrite (split_go_separator "`" "``" r). now rewrite H.
Qed.

End Fences.

(** X8.  A message made of a "```json" fence, a body and a closing
    "```" fence, with any text around them and no backtick elsewhere, is
    decoded from its trimmed body; a message without any backtick is
    decoded as it is. *)
Theorem X8_fence_stripping :
  forall pre body post : string,
    tickless pre = true -> tickless body = true -> tickless post = true ->
    Edge.extract_json (pre ++ "```json" ++ body ++ "```" ++ post)
    = JS.Ok (JS.trim body)
    /\ Edge.extract_json pre = JS.Ok pre.
Proof.
  intros pre body post Tp Tb To. split.
  - unfold Edge.extract_json, Edge.fence_json, Edge.fence.
    rewrite includes_inside.
    destruct (first_part_of_fenced body post Tb To) as (h & t & S & Hh).
    assert (exists t2, JS.split_go "```" 0 (body ++ h) = body :: t2)
      as (t2 & S2).
    { apply (first_part_before_fence body h Tb).
      destruct Hh as [-> | ->]; [now left | right; now exists post]. }
    unfold Edge.fence_json, Edge.fence in S.
    unfold JS.split.
    rewrite (split_go_tickless "``json" pre
               ("```json" ++ body ++ "```" ++ post)
               "" ((body ++ h) :: t) Tp).
    + cbn [Edge.part nth_error JS.bind]. rewrite S2. reflexivity.
    + rewrite (split_go_separator "`" "``json"). now rewrite S.
  - unfold Edge.extract_json, Edge.fence_json, Edge.fence.
    now rewrite !includes_tickless.
Qed.

(** X8 at work: a fenced analysis with a sentence in front. *)
Lemma X8_fence_stripping_witness :
  Edge.extract_json
    ("Here is the analysis: " ++ "```json" ++ " {} " ++ "```" ++ "")
  = JS.Ok "{}".
Proof.
  exact (proj1 (X8_fence_stripping "Here is the analysis: " " {} " ""
                  eq_refl eq_refl eq_refl)).
Defined.

(* ================================================================== *)
(** ** Further properties of the rule-based scorers *)
(* ================================================================== *)

Lemma edge_score_final text :
  Edge.riskScore (Edge.ruleBased text) = final_score (Edge.rawScore text).
Proof.
  rewrite ruleBased_closed. unfold final_score, Edge.level_of.
  cbv zeta. cbn [Edge.riskScore].
  destruct (50 <=? Z.min 100 (Edge.rawScore text)); [reflexivity|].
  destruct (25 <=? Z.min 100 (Edge.rawScore text)); reflexivity.
Qed.

Lemma hook_score_final transcript lang :
  Hook.riskScore (Hook.ruleBasedScamAnalysis transcript lang)
  = final_score (Hook.rawScore transcript).
Proof.
  rewrite ruleBasedScamAnalysis_closed. unfold final_score, Hook.level_of.
  cbv zeta. cbn [Hook.riskScore].
  destruct (50 <=? Z.min 100 (Hook.rawScore transcript)); [reflexivity|].
  destruct (25 <=? Z.min 100 (Hook.rawScore transcript)); reflexivity.
Qed.

Lemma final_score_monotone a b : a <= b -> final_score a <= final_score b.
Proof.
  unfold final_score. cbv zeta. intros H.
  destruct (Z.leb_spec 50 (Z.min 100 a)), (Z.leb_spec 50 (Z.min 100 b)); lia.
Qed.

Lemma final_score_zero raw : 0 <= raw -> (final_score raw = 0 <-> raw = 0).
Proof.
  unfold final_score. cbv zeta. intros H.
  destruct (Z.leb_spec 50 (Z.min 100 raw)); lia.
Qed.

Lemma total_zero (A : Type) (f : A -> Z) (l : list A) :
  (forall x, In x l -> 0 <= f x) ->
  (total (map f l) = 0 <-> forall x, In x l -> f x = 0).
Proof.
  induction l as [|a l IH]; simpl; intros H.
  - split; [intros _ x [] | reflexivity].
  - assert (0 <= f a) by (apply H; now left).
    assert (0 <= total (map f l))
      by (apply total_nonneg; intros; apply H; now right).
    assert (forall x, In x l -> 0 <= f x) as H' by (intros; apply H; now right).
    split.
    + intros E x [<-|Hx]; [lia|]. apply (proj1 (IH H')); [lia | assumption].
    + intros E. rewrite (E a (or_introl eq_refl)).
      rewrite (proj2 (IH H')); [reflexivity|]. intros x Hx. apply E. now right.
Qed.

Lemma filter_nil (A : Type) (f : A -> bool) (l : list A) :
  filter f l = [] <-> forall x, In x l -> f x = false.
Proof.
  induction l as [|a l IH]; simpl.
  - split; [intros _ x [] | reflexivity].
  - destruct (f a) eqn:E; split.
    + discriminate.
    + intros H. specialize (H a (or_introl eq_refl)). congruence.
    + intros H x [<-|Hx]; [assumption | now apply IH].
    + intros H. apply IH. intros x Hx. apply H. now right.
Qed.

Lemma patterns_weights_positive :
  Forall (fun p => 0 < Edge.weight p) Edge.patterns.
Proof.
  repeat constructor; simpl; lia.
Qed.

Lemma hook_weights_positive :
  Forall (fun p => 0 < Hook.weight p) Hook.patterns.
Proof.
  repeat constructor; simpl; lia.
Qed.

Lemma contribution_zero text ty :
  Edge.contribution Edge.patterns text ty = 0
  <-> Edge.detects Edge.patterns text ty = false.
Proof.
  unfold Edge.contribution, Edge.detects.
  destruct (Edge.find_pattern Edge.patterns ty) as [p|] eqn:F;
    [|split; reflexivity].
  apply find_some in F as [Hin _].
  pose proof (proj1 (Forall_forall _ _) patterns_weights_positive p Hin) as W.
  simpl in W. destruct (Edge.some_keyword text (Edge.keywords p)); split;
    intros; try reflexivity; try discriminate; lia.
Qed.

Lemma hook_contribution_zero text p :
  In p Hook.patterns ->
  (Hook.contribution text p = 0 <-> Hook.detected (Hook.entry text p) = false).
Proof.
  intros Hin. rewrite (proj1 (entry_flagged text p Hin)).
  unfold Hook.contribution.
  pose proof (proj1 (Forall_forall _ _) hook_weights_positive p Hin) as W.
  simpl in W. destruct (Hook.some_keyword text (Hook.keywords p)); split;
    intros; try reflexivity; try discriminate; lia.
Qed.

(** X9.  In both rule-based scorers the score of a result tells its
    level: a low result scores 0 to 24, a medium one 25 to 49 and a high
    one 75 to 100, so no result scores from 50 to 74. *)
Theorem X9_score_tells_level :
  forall text transcript language : string,
    let e := Edge.ruleBased text in
    let h := Hook.ruleBasedScamAnalysis transcript language in
    (Edge.riskLevel e = "low" /\ 0 <= Edge.riskScore e < 25
     \/ Edge.riskLevel e = "medium" /\ 25 <= Edge.riskScore e < 50
     \/ Edge.riskLevel e = "high" /\ 75 <= Edge.riskScore e <= 100)
    /\ (Hook.riskLevel h = Hook.low /\ 0 <= Hook.riskScore h < 25
        \/ Hook.riskLevel h = Hook.medium /\ 25 <= Hook.riskScore h < 50
        \/ Hook.riskLevel h = Hook.high /\ 75 <= Hook.riskScore h <= 100).
Proof.
  intros text transcript language e h. subst e h.
  rewrite ruleBased_closed, ruleBasedScamAnalysis_closed.
  cbv zeta. cbn [Edge.riskLevel Edge.riskScore Hook.riskLevel Hook.riskScore].
  pose proof (rawScore_nonneg text).
  pose proof (hook_rawScore_nonneg transcript).
  unfold Edge.level_of, Hook.level_of. split.
  - destruct (Z.leb_spec 50 (Z.min 100 (Edge.rawScore text)));
      [right; right; simpl; split; [reflexivity | lia]|].
    destruct (Z.leb_spec 25 (Z.min 100 (Edge.rawScore text)));
      [right; left | left]; simpl; split; try reflexivity; lia.
  - destruct (Z.leb_spec 50 (Z.min 100 (Hook.rawScore transcript)));
      [right; right; simpl; split; [reflexivity | lia]|].
    destruct (Z.leb_spec 25 (Z.min 100 (Hook.rawScore transcript)));
      [right; left | left]; simpl; split; try reflexivity; lia.
Qed.

(** X10.  In both rule-based scorers the score is 0 exactly when no
    indicator is flagged. *)
Theorem X10_zero_score_iff_nothing_flagged :
  forall text transcript language : string,
    (Edge.riskScore (Edge.ruleBased text) = 0
     <-> Edge.detected_ids (Edge.ruleBased text) = [])
    /\ (Hook.riskScore (Hook.ruleBasedScamAnalysis transcript language) = 0
        <-> Hook.detected_ids (Hook.ruleBasedScamAnalysis transcript language)
            = []).
Proof.
  intros text transcript language. split.
  - rewrite edge_score_final, detected_ids_closed.
    rewrite (final_score_zero _ (rawScore_nonneg text)).
    rewrite rawScore_closed, filter_nil.
    rewrite total_zero by (intros; apply contribution_nonneg).
    split; intros H x Hx; apply contribution_zero; now apply H.
  - rewrite hook_score_final, hook_detected_ids_closed.
    rewrite (final_score_zero _ (hook_rawScore_nonneg transcript)).
    rewrite hook_rawScore_closed.
    rewrite total_zero by (intros; now apply hook_contribution_nonneg).
    split.
    + intros H.
      assert (filter Hook.detected
                (map (Hook.entry (JS.trim (JS.toLowerCase transcript)))
                   Hook.patterns) = []) as ->; [|reflexivity].
      apply filter_nil. intros i Hi.
      apply in_map_iff in Hi as (p & <- & Hp).
      apply (hook_contribution_zero _ p Hp). now apply H.
    + intros H p Hp. apply (hook_contribution_zero _ p Hp).
      apply map_eq_nil in H.
      apply (proj1 (filter_nil _ _ _) H). now apply in_map.
Qed.

(** X11.  Whatever the transcript, neither scorer flags voice_pattern,
    and the edge function, whose table has no rule for it, does not flag
    emotional either. *)
Theorem X11_ids_never_flagged :
  forall text transcript language : string,
    (In "voice_pattern" (Edge.detected_ids (Edge.ruleBased text)) -> False)
    /\ (In "emotional" (Edge.detected_ids (Edge.ruleBased text)) -> False)
    /\ (In (Some "voice_pattern")
           (Hook.detected_ids
              (Hook.ruleBasedScamAnalysis transcript language)) -> False).
Proof.
  intros text transcript language. split; [|split].
  - rewrite detected_ids_closed. intros H.
    apply filter_In in H as [_ H]. discriminate H.
  - rewrite detected_ids_closed. intros H.
    apply filter_In in H as [_ H]. discriminate H.
  - rewrite hook_detected_ids_closed. intros H.
    apply in_map_iff in H as (i & E & Hi).
    apply filter_In in Hi as [Hi _].
    apply in_map_iff in Hi as (p & <- & Hp).
    rewrite (proj2 (entry_flagged _ p Hp)) in E.
    simpl in Hp.
    repeat (destruct Hp as [<-|Hp]; [discriminate E|]). contradiction.
Qed.

Lemma keywords_subset text kws kws' :
  incl kws kws' ->
  Edge.some_keyword text kws = true -> Hook.some_keyword text kws' = true.
Proof.
  unfold Edge.some_keyword, Hook.some_keyword. intros I H.
  apply existsb_exists in H as (kw & Hin & Hk).
  apply existsb_exists. exists kw. split; [now apply I | assumption].
Qed.

(** Every rule of the edge table is a rule of the client table, with the
    same weight and with every keyword of its own. *)
Lemma edge_rule_in_hook pe :
  In pe Edge.patterns ->
  exists ph,
    In ph Hook.patterns
    /\ Hook.rule_id ph = Edge.rule_id pe
    /\ Hook.weight ph = Edge.weight pe
    /\ incl (Edge.keywords pe) (Hook.keywords ph).
Proof.
  intros H. simpl in H.
  destruct H as [<-|[<-|[<-|[<-|[<-|[]]]]]].
  - exists (nth 0 Hook.patterns (Hook.mkRule "" [] 0)).
    repeat split; [simpl; tauto | intros x Hx; simpl in *; tauto].
  - exists (nth 1 Hook.patterns (Hook.mkRule "" [] 0)).
    repeat split; [simpl; tauto | intros x Hx; simpl in *; tauto].
  - exists (nth 2 Hook.patterns (Hook.mkRule "" [] 0)).
    repeat split; [simpl; tauto | intros x Hx; simpl in *; tauto].
  - exists (nth 3 Hook.patterns (Hook.mkRule "" [] 0)).
    repeat split; [simpl; tauto | intros x Hx; simpl in *; tauto].
  - exists (nth 4 Hook.patterns (Hook.mkRule "" [] 0)).
    repeat split; [simpl; tauto | intros x Hx; simpl in *; tauto].
Qed.

Ltac listed := intros x Hx; simpl in *; tauto.

Lemma edge_raw_le_hook_raw transcript :
  Edge.rawScore (Edge.normalize transcript) <= Hook.rawScore transcript.
Proof.
  rewrite rawScore_closed, hook_rawScore_closed. unfold Edge.normalize.
  set (text := JS.trim (JS.toLowerCase transcript)).
  set (de := Edge.mkRule "" [] 0). set (dh := Hook.mkRule "" [] 0).
  assert (Edge.some_keyword text (Edge.keywords (nth 0 Edge.patterns de)) = true
          -> Hook.some_keyword text (Hook.keywords (nth 0 Hook.patterns dh))
             = true) as H0 by (apply keywords_subset; listed).
  assert (Edge.some_keyword text (Edge.keywords (nth 1 Edge.patterns de)) = true
          -> Hook.some_keyword text (Hook.keywords (nth 1 Hook.patterns dh))
             = true) as H1 by (apply keywords_subset; listed).
  assert (Edge.some_keyword text (Edge.keywords (nth 2 Edge.patterns de)) = true
          -> Hook.some_keyword text (Hook.keywords (nth 2 Hook.patterns dh))
             = true) as H2 by (apply keywords_subset; listed).
  assert (Edge.some_keyword text (Edge.keywords (nth 3 Edge.patterns de)) = true
          -> Hook.some_keyword text (Hook.keywords (nth 3 Hook.patterns dh))
             = true) as H3 by (apply keywords_subset; listed).
  assert (Edge.some_keyword text (Edge.keywords (nth 4 Edge.patterns de)) = true
          -> Hook.some_keyword text (Hook.keywords (nth 4 Hook.patterns dh))
             = true) as H4 by (apply keywords_subset; listed).
  cbv [nth Edge.patterns Hook.patterns Edge.keywords Hook.keywords]
    in H0, H1, H2, H3, H4.
  cbv [total map fold_right Edge.indicatorTypes Edge.patterns Hook.patterns
       Edge.contribution Hook.contribution Edge.find_pattern find
       Edge.rule_id String.eqb Ascii.eqb Bool.eqb
       Edge.keywords Edge.weight Hook.keywords Hook.weight].
  repeat match goal with
         | H : ?a = true -> ?b = true |- _ =>
             destruct a; [rewrite (H eq_refl) | destruct b]; clear H
         end;
    destruct (Hook.some_keyword text _); lia.
Qed.

(** X12.  The client scorer is at least as strict as the edge function
    without a key: on the same transcript every id the edge function flags
    is flagged by the client, and the client's score, before and after the
    cap and the floor, is not lower. *)
Theorem X12_client_at_least_as_strict :
  forall transcript language : string,
    let e := Edge.ruleBased (Edge.normalize transcript) in
    let h := Hook.ruleBasedScamAnalysis transcript language in
    (forall i, In i (Edge.detected_ids e) -> In (Some i) (Hook.detected_ids h))
    /\ Edge.rawScore (Edge.normalize transcript) <= Hook.rawScore transcript
    /\ Edge.riskScore e <= Hook.riskScore h.
Proof.
  intros transcript language e h. subst e h. split; [|split].
  - intros i. rewrite detected_ids_closed, hook_detected_ids_closed.
    unfold Edge.normalize.
    set (text := JS.trim (JS.toLowerCase transcript)).
    intros H. apply filter_In in H as [_ D].
    unfold Edge.detects in D.
    destruct (Edge.find_pattern Edge.patterns i) as [pe|] eqn:F;
      [|discriminate].
    apply find_some in F as [Hin E]. apply String.eqb_eq in E.
    destruct (edge_rule_in_hook pe Hin) as (ph & Hp & Ei & _ & I).
    destruct (entry_flagged text ph Hp) as [Ed Eid].
    apply in_map_iff. exists (Hook.entry text ph). split.
    + rewrite Eid. congruence.
    + apply filter_In. split; [now apply in_map|].
      rewrite Ed. now apply (keywords_subset text (Edge.keywords pe)).
  - apply edge_raw_le_hook_raw.
  - rewrite edge_score_final, hook_score_final.
    apply final_score_monotone, edge_raw_le_hook_raw.
Qed.

(** X12 at work: "pay the fine" flags authority and money_request in the
    edge function, hence in the client. *)
Lemma X12_client_at_least_as_strict_witness :
  In (Some "authority")
     (Hook.detected_ids (Hook.ruleBasedScamAnalysis "Pay the fine" "en")).
Proof.
  apply (proj1 (X12_client_at_least_as_strict "Pay the fine" "en")).
  vm_compute. now left.
Defined.

(** X13.  A result of either rule-based scorer always carries guidance:
    one sentence from the edge function, at least three from the client in
    every language; and the client answers in English for a language other
    than "en", "hi" and "ta". *)
Theorem X13_guidance_is_never_empty :
  forall text transcript language : string,
    (exists g, Edge.guidance (Edge.ruleBased text) = [g])
    /\ (3 <= List.length
               (Hook.guidance (Hook.ruleBasedScamAnalysis transcript language)))%nat
    /\ (language <> "hi" -> language <> "ta" ->
        Hook.guidance (Hook.ruleBasedScamAnalysis transcript language)
        = Hook.guidance (Hook.ruleBasedScamAnalysis transcript "en")).
Proof.
  intros text transcript language. split; [|split].
  - rewrite ruleBased_closed. cbv zeta. cbn [Edge.guidance].
    unfold Edge.guidance_of, Edge.level_of.
    destruct (50 <=? _); [eexists; reflexivity|].
    destruct (25 <=? _); eexists; reflexivity.
  - rewrite ruleBasedScamAnalysis_closed. cbv zeta. cbn [Hook.guidance].
    unfold Hook.getLocalizedGuidance.
    destruct (language =? "en")%string;
      [|destruct (language =? "hi")%string;
        [|destruct (language =? "ta")%string]];
      destruct (Hook.level_of _); simpl; lia.
  - intros N1 N2. rewrite !ruleBasedScamAnalysis_closed.
    cbv zeta. cbn [Hook.guidance]. unfold Hook.getLocalizedGuidance.
    destruct (String.eqb_spec language "en"); [reflexivity|].
    destruct (String.eqb_spec language "hi"); [contradiction|].
    destruct (String.eqb_spec language "ta"); [contradiction | reflexivity].
Qed.

(* ================================================================== *)
(** ** Further properties of the scheduler *)
(* ================================================================== *)

Section Timers.

Import Hook.

Lemma without_In i ts t :
  In t (without i ts) <-> In t ts /\ timer_id t <> i.
Proof.
  unfold without. rewrite filter_In, negb_true_iff, Nat.eqb_neq. tauto.
Qed.

Lemma clear_In ref ts t :
  In t (clear ref ts) <-> In t ts /\ ref <> Some (timer_id t).
Proof.
  destruct ref as [i|]; simpl.
  - rewrite without_In. split; intros [H N]; split; try assumption; congruence.
  - split; [intros H; split; [assumption | discriminate] | tauto].
Qed.

Lemma NoDup_ids_filter (p : Timer -> bool) ts :
  NoDup (map timer_id ts) -> NoDup (map timer_id (filter p ts)).
Proof.
  induction ts as [|t ts IH]; simpl; intros H; [constructor|].
  inversion H as [|x l Hn Hd]; subst.
  destruct (p t); simpl; [|now apply IH].
  constructor; [|now apply IH].
  intros Hin. apply Hn. apply in_map_iff in Hin as (u & E & Hu).
  apply filter_In in Hu as [Hu _]. apply in_map_iff. now exists u.
Qed.

Lemma NoDup_ids_clear ref ts :
  NoDup (map timer_id ts) -> NoDup (map timer_id (clear ref ts)).
Proof.
  destruct ref; simpl; [apply NoDup_ids_filter | trivial].
Qed.

Lemma NoDup_snoc (A : Type) (l : list A) (x : A) :
  NoDup l -> ~ In x l -> NoDup (l ++ [x]).
Proof.
  induction 1 as [|a l Ha Hl IH]; simpl; intros N.
  - constructor; [intros [] | constructor].
  - constructor.
    + intros Hin. apply in_app_or in Hin as [Hin|[->|[]]]; [contradiction|].
      apply N. now left.
    + apply IH. intros Hin. apply N. now right.
Qed.

Lemma tidy_same st st' :
  tidy st ->
  timers st' = timers st -> next_id st' = next_id st ->
  debounceRef st' = debounceRef st ->
  tidy st'.
Proof.
  intros [F D R H] Et En Ed.
  constructor; rewrite ?Et, ?En, ?Ed; assumption.
Qed.

Lemma tidy_shrink st st' :
  tidy st ->
  incl (timers st') (timers st) ->
  NoDup (map timer_id (timers st')) ->
  next_id st' = next_id st ->
  debounceRef st' = debounceRef st
  \/ (debounceRef st' = None
      /\ forall t, In t (timers st') -> is_debounce t = false) ->
  tidy st'.
Proof.
  intros [F D R H] I N En Ed. constructor.
  - intros t Ht. rewrite En. apply F, I, Ht.
  - exact N.
  - intros i Hi. rewrite En. destruct Ed as [Ed|[Ed _]]; [|congruence].
    apply R. congruence.
  - intros t Ht B. destruct Ed as [Ed|[_ Ed]].
    + rewrite Ed. apply H; [apply I, Ht | exact B].
    + rewrite (Ed t Ht) in B. discriminate.
Qed.

Lemma tidy_add st st' k lang :
  tidy st ->
  timers st' = (timers st ++ [mkTimer (next_id st) k lang])%list ->
  next_id st' = S (next_id st) ->
  (debounceRef st' = debounceRef st /\ k <> Debounce)
  \/ (debounceRef st' = Some (next_id st)
      /\ forall t, In t (timers st) -> is_debounce t = false) ->
  tidy st'.
Proof.
  intros [F D R H] Et En Ed. constructor.
  - intros t Ht. rewrite Et in Ht. rewrite En.
    apply in_app_or in Ht as [Ht|[<-|[]]]; [|simpl; lia].
    specialize (F t Ht). lia.
  - rewrite Et, map_app. simpl. apply NoDup_snoc; [exact D|].
    intros Hin. apply in_map_iff in Hin as (u & E & Hu).
    specialize (F u Hu). lia.
  - intros i Hi. rewrite En. destruct Ed as [[Ed _]|[Ed _]].
    + rewrite Ed in Hi. specialize (R i Hi). lia.
    + rewrite Ed in Hi. inversion Hi. lia.
  - intros t Ht B. rewrite Et in Ht.
    apply in_app_or in Ht as [Ht|[<-|[]]].
    + destruct Ed as [[Ed _]|[_ Ed]].
      * rewrite Ed. now apply H.
      * rewrite (Ed t Ht) in B. discriminate.
    + destruct Ed as [[_ Ed]|[Ed _]].
      * unfold is_debounce in B. simpl in B. destruct k; try discriminate.
        now contradiction Ed.
      * exact Ed.
Qed.

End Timers.

Section Tidiness.

Import Hook.

Lemma tidy_initial lang : tidy (initial lang).
Proof.
  constructor; simpl; try constructor; try contradiction; discriminate.
Qed.

Lemma tidy_drain st : tidy st -> tidy (drain st).
Proof.
  intros T. apply (tidy_same st); [assumption | | |];
    unfold drain; destruct (reset_queued st); reflexivity.
Qed.

Lemma tidy_startAnalysis t st : tidy st -> tidy (fst (startAnalysis t st)).
Proof.
  intros T.
  set (base := mkResult low 0 all_clear (getLocalizedGuidance low (language st))).
  set (stA := mkState true (Some base) (intervalRef st)
                (firstCheckTimeoutRef st) (debounceRef st) t 0 (language st)
                (timers st) (next_id st) (reset_queued st)).
  assert (tidy stA) as TA by (apply (tidy_same st); auto).
  assert (tidy (fst (schedule stA FirstCheck (language st)))) as T1.
  { apply (tidy_add stA _ FirstCheck (language st)); auto.
    left. split; [reflexivity | discriminate]. }
  assert (tidy (fst (schedule (fst (schedule stA FirstCheck (language st)))
                       Interval (language st)))) as T2.
  { apply (tidy_add _ _ Interval (language st) T1); auto.
    left. split; [reflexivity | discriminate]. }
  apply (tidy_same _ _ T2); reflexivity.
Qed.

Lemma cleared_debounce st t :
  tidy st -> In t (clear (debounceRef st) (timers st)) -> is_debounce t = false.
Proof.
  intros T Ht. apply clear_In in Ht as [Ht N].
  destruct (is_debounce t) eqn:B; [|reflexivity].
  contradiction N. now apply (debounce_held st T).
Qed.

Lemma tidy_updateTranscript t st :
  tidy st -> tidy (fst (updateTranscript t st)).
Proof.
  intros T. unfold updateTranscript. cbv zeta.
  destruct (10 <=? _)%nat; [|apply (tidy_same st); auto].
  set (stc := set_timers (set_transcript st t)
                (clear (debounceRef (set_transcript st t))
                   (timers (set_transcript st t)))).
  assert (tidy stc) as Tc.
  { apply (tidy_shrink st); auto.
    - intros x Hx. apply (proj1 (clear_In _ _ _) Hx).
    - apply NoDup_ids_clear, (ids_distinct st T). }
  apply (tidy_add stc _ Debounce (language stc) Tc); auto.
  right. split; [reflexivity|].
  intros x Hx. now apply (cleared_debounce st).
Qed.

Lemma tidy_stopAnalysis st : tidy st -> tidy (fst (stopAnalysis st)).
Proof.
  intros T.
  assert (forall st',
             timers st'
             = clear (intervalRef st)
                 (clear (firstCheckTimeoutRef st)
                    (clear (debounceRef st) (timers st))) ->
             next_id st' = next_id st -> debounceRef st' = None ->
             tidy st') as K.
  { intros st' Et En Ed. apply (tidy_shrink st); auto.
    - rewrite Et. intros x Hx.
      apply clear_In in Hx as [Hx _]. apply clear_In in Hx as [Hx _].
      apply (proj1 (clear_In _ _ _) Hx).
    - rewrite Et. do 3 apply NoDup_ids_clear. apply (ids_distinct st T).
    - right. split; [assumption|]. rewrite Et. intros x Hx.
      apply clear_In in Hx as [Hx _]. apply clear_In in Hx as [Hx _].
      now apply (cleared_debounce st). }
  unfold stopAnalysis. cbv zeta.
  destruct (15 <=? _)%nat; apply K; reflexivity.
Qed.

Lemma tidy_fire i st : tidy st -> tidy (fst (fire i st)).
Proof.
  intros T. apply tidy_drain in T. unfold fire. cbv zeta.
  destruct (find_timer i (drain st)) as [t|] eqn:F; [|exact T].
  apply find_some in F as [Hin Ei]. apply Nat.eqb_eq in Ei.
  set (st0 := drain st) in *.
  assert (tidy (set_timers st0 (without i (timers st0)))) as Tw.
  { apply (tidy_shrink st0); auto.
    - intros x Hx. apply (proj1 (without_In _ _ _) Hx).
    - apply NoDup_ids_filter, (ids_distinct st0 T). }
  assert (forall lang s, tidy s -> tidy (fst (runIntervalCheck lang s))) as RI.
  { intros lang s Ts. unfold runIntervalCheck. cbv zeta.
    destruct (_ && _)%bool; [|exact Ts]. apply (tidy_same s); auto. }
  destruct (kind t) eqn:K; cbn [one_shot].
  - now apply RI.
  - now apply RI.
  - assert (forall s,
               timers s = without i (timers st0) -> next_id s = next_id st0 ->
               debounceRef s = None -> tidy s) as D.
    { intros s Et En Ed. apply (tidy_shrink st0); auto.
      - rewrite Et. intros x Hx. apply (proj1 (without_In _ _ _) Hx).
      - rewrite Et. apply NoDup_ids_filter, (ids_distinct st0 T).
      - right. split; [assumption|]. rewrite Et. intros x Hx.
        apply without_In in Hx as [Hx N].
        destruct (is_debounce x) eqn:B; [|reflexivity].
        pose proof (debounce_held st0 T x Hx B) as E1.
        assert (is_debounce t = true) as Bt
            by (unfold is_debounce; now rewrite K).
        pose proof (debounce_held st0 T t Hin Bt) as E2.
        congruence. }
    unfold debounceFires. cbv zeta.
    cbn [transcriptRef lastAnalyzedLengthRef].
    destruct (_ <? _)%nat; apply D; reflexivity.
  - apply (tidy_same _ _ Tw); reflexivity.
Qed.

Lemma tidy_step st e : tidy st -> tidy (fst (step st e)).
Proof.
  intros T. destruct e; simpl.
  - now apply tidy_startAnalysis.
  - now apply tidy_updateTranscript.
  - now apply tidy_stopAnalysis.
  - apply (tidy_same st); auto.
  - apply (tidy_add st _ AudioDelay (language st)); auto.
    left. split; [reflexivity | discriminate].
  - now apply tidy_fire.
  - now apply tidy_drain.
  - apply (tidy_same st); auto.
  - apply (tidy_shrink st); auto.
    + intros x Hx. simpl in Hx.
      apply clear_In in Hx as [Hx _]. apply clear_In in Hx as [Hx _].
      apply (proj1 (clear_In _ _ _) Hx).
    + simpl. do 3 apply NoDup_ids_clear. apply (ids_distinct st T).
Qed.

Lemma tidy_run es : forall st, tidy st -> tidy (fst (run st es)).
Proof.
  induction es as [|e es IH]; intros st T; [exact T|].
  rewrite run_cons. simpl. apply IH. now apply tidy_step.
Qed.

Lemma one_at_most (p : Timer -> bool) (c : nat) ts :
  NoDup (map timer_id ts) ->
  (forall t, In t ts -> p t = true -> timer_id t = c) ->
  (List.length (filter p ts) <= 1)%nat.
Proof.
  induction ts as [|t ts IH]; simpl; intros N H; [lia|].
  inversion N as [|x l Hn Hd]; subst.
  assert (List.length (filter p ts) <= 1)%nat as L
      by (apply IH; [assumption | intros u Hu; apply H; now right]).
  destruct (p t) eqn:P; [|exact L].
  destruct (filter p ts) as [|u rest] eqn:E; [simpl; lia|].
  exfalso. apply Hn.
  assert (In u (filter p ts)) as Hu by (rewrite E; now left).
  apply filter_In in Hu as [Hu Pu].
  rewrite (H t (or_introl eq_refl) P), <- (H u (or_intror Hu) Pu).
  now apply in_map.
Qed.

End Tidiness.

(** X14.  In every state the hook reaches, through any sequence of
    calls, timer callbacks and task ends, the pending timers have distinct
    ids, at most one of them is a debounce, and it is the one
    [debounceRef] holds: however many times [updateTranscript] is called
    before the debounce expires, one expiry is pending. *)
Theorem X14_one_debounce_pending :
  forall (lang : string) (es : list Hook.Event),
    let st := fst (Hook.run (Hook.initial lang) es) in
    NoDup (map Hook.timer_id (Hook.timers st))
    /\ (List.length (filter is_debounce (Hook.timers st)) <= 1)%nat
    /\ (forall t,
           In t (Hook.timers st) -> is_debounce t = true ->
           Hook.debounceRef st = Some (Hook.timer_id t)).
Proof.
  intros lang es st.
  assert (tidy st) as T by (apply tidy_run, tidy_initial).
  split; [apply (ids_distinct st T)|]. split; [|apply (debounce_held st T)].
  destruct (Hook.debounceRef st) as [i|] eqn:D.
  - apply (one_at_most is_debounce i); [apply (ids_distinct st T)|].
    intros t Ht B. pose proof (debounce_held st T t Ht B). congruence.
  - apply (one_at_most is_debounce 0%nat); [apply (ids_distinct st T)|].
    intros t Ht B. pose proof (debounce_held st T t Ht B). congruence.
Qed.

Section Quiet.

Import Hook.

Lemma find_timer_held st t :
  NoDup (map timer_id (timers st)) -> In t (timers st) ->
  find_timer (timer_id t) st = Some t.
Proof.
  unfold find_timer. induction (timers st) as [|u ts IH]; simpl;
    intros N H; [contradiction|].
  inversion N as [|x l Hn Hd]; subst.
  destruct H as [->|H]; [now rewrite Nat.eqb_refl|].
  destruct (Nat.eqb_spec (timer_id u) (timer_id t)) as [E|_]; [|now apply IH].
  exfalso. apply Hn. rewrite E. now apply in_map.
Qed.

Lemma find_timer_gone i st :
  (forall t, In t (timers st) -> timer_id t <> i) -> find_timer i st = None.
Proof.
  unfold find_timer. induction (timers st) as [|u ts IH]; simpl; intros H;
    [reflexivity|].
  destruct (Nat.eqb_spec (timer_id u) i) as [E|_].
  - now contradiction (H u (or_introl eq_refl)).
  - apply IH. intros t Ht. apply H. now right.
Qed.

Lemma drain_settled st : reset_queued (drain st) = false.
Proof.
  unfold drain. destruct (reset_queued st) eqn:E; [reflexivity | exact E].
Qed.

Lemma drain_idle st : reset_queued st = false -> drain st = st.
Proof.
  unfold drain. now intros ->.
Qed.

(** A callback finds nothing to dispatch when the transcript is no longer
    than what was last analysed. *)
Lemma fire_quiet i st :
  (String.length (transcriptRef (drain st))
   <= lastAnalyzedLengthRef (drain st))%nat ->
  dispatched (snd (fire i st)) = [].
Proof.
  intros Q. unfold fire. cbv zeta.
  destruct (find_timer i (drain st)) as [t|]; [|reflexivity].
  assert (forall lang s,
             transcriptRef s = transcriptRef (drain st) ->
             lastAnalyzedLengthRef s = lastAnalyzedLengthRef (drain st) ->
             dispatched (snd (runIntervalCheck lang s)) = []) as RI.
  { intros lang s Et El. unfold runIntervalCheck. cbv zeta. rewrite Et, El.
    replace (_ <? _)%nat with false
      by (symmetry; apply Nat.ltb_ge; exact Q).
    rewrite andb_false_r. reflexivity. }
  destruct (kind t); cbn [one_shot].
  - now apply RI.
  - now apply RI.
  - unfold debounceFires. cbv zeta.
    cbn [transcriptRef lastAnalyzedLengthRef set_timers].
    replace (_ <? _)%nat with false
      by (symmetry; apply Nat.ltb_ge; exact Q).
    reflexivity.
  - reflexivity.
Qed.

(** What a dispatching callback leaves behind. *)
Lemma fire_dispatching i st t :
  In t (dispatched (snd (fire i st))) ->
  reset_queued (fst (fire i st)) = false
  /\ transcriptRef (fst (fire i st)) = t
  /\ lastAnalyzedLengthRef (fst (fire i st)) = String.length t.
Proof.
  unfold fire. cbv zeta.
  pose proof (drain_settled st) as S.
  destruct (find_timer i (drain st)) as [tm|]; [|intros []].
  assert (forall lang s,
             reset_queued s = false ->
             In t (dispatched (snd (runIntervalCheck lang s))) ->
             reset_queued (fst (runIntervalCheck lang s)) = false
             /\ transcriptRef (fst (runIntervalCheck lang s)) = t
             /\ lastAnalyzedLengthRef (fst (runIntervalCheck lang s))
                = String.length t) as RI.
  { intros lang s Rs. unfold runIntervalCheck. cbv zeta.
    destruct (_ && _)%bool; [|intros []].
    intros [<-|[]]. repeat split. exact Rs. }
  destruct (kind tm); cbn [one_shot].
  - now apply RI.
  - now apply RI.
  - unfold debounceFires. cbv zeta.
    cbn [transcriptRef lastAnalyzedLengthRef set_timers].
    destruct (_ <? _)%nat; [|intros []].
    intros [<-|[]]. repeat split. exact S.
  - intros [].
Qed.

Lemma drain_twice st : drain (drain st) = drain st.
Proof.
  apply drain_idle, drain_settled.
Qed.

(** A callback that finds the transcript empty changes neither the
    transcript nor the last-analysed length. *)
Lemma fire_empty i st :
  transcriptRef (drain st) = "" ->
  transcriptRef (drain (fst (fire i st))) = ""
  /\ dispatched (snd (fire i st)) = [].
Proof.
  intros E. split; [|apply fire_quiet; rewrite E; apply Nat.le_0_l].
  assert (forall s, reset_queued s = false -> transcriptRef s = "" ->
                    transcriptRef (drain s) = "") as D
    by (intros s R T; now rewrite drain_idle).
  pose proof (drain_settled st) as S.
  unfold fire. cbv zeta.
  destruct (find_timer i (drain st)) as [t|]; [|now apply D].
  assert (forall lang s,
             reset_queued s = false -> transcriptRef s = "" ->
             transcriptRef (drain (fst (runIntervalCheck lang s))) = "")
    as RI.
  { intros lang s R T. unfold runIntervalCheck. cbv zeta. rewrite T.
    cbn [String.length ANALYZE_THRESHOLD Nat.leb andb]. now apply D. }
  destruct (kind t); cbn [one_shot].
  - now apply RI.
  - now apply RI.
  - unfold debounceFires. cbv zeta.
    cbn [transcriptRef lastAnalyzedLengthRef set_timers]. rewrite E.
    cbn [String.length].
    replace (_ <? 0)%nat with false
      by (symmetry; apply Nat.ltb_ge, Nat.le_0_l).
    now apply D.
  - now apply D.
Qed.

(** While the application calls none of the four functions that set or
    analyse the transcript, an empty transcript stays empty and nothing is
    dispatched. *)
Lemma step_uncalled st e :
  uncalled e = true ->
  transcriptRef (drain st) = "" ->
  transcriptRef (drain (fst (step st e))) = ""
  /\ dispatched (snd (step st e)) = [].
Proof.
  intros U E. destruct e; try discriminate U; cbn [step fst snd].
  - split; [|reflexivity]. revert E. unfold drain, analyzeAudio.
    cbn [schedule fst reset_queued transcriptRef].
    now destruct (reset_queued st).
  - now apply fire_empty.
  - split; [|reflexivity]. now rewrite drain_twice.
  - split; [|reflexivity]. revert E. unfold drain.
    cbn [reset_queued transcriptRef]. now destruct (reset_queued st).
  - split; [|reflexivity]. revert E. unfold drain, unmount, set_timers.
    cbn [reset_queued transcriptRef]. now destruct (reset_queued st).
Qed.

Lemma dispatched_app a b :
  dispatched (a ++ b) = (dispatched a ++ dispatched b)%list.
Proof.
  unfold dispatched. apply flat_map_app.
Qed.

Lemma run_uncalled es : forall st,
  forallb uncalled es = true ->
  transcriptRef (drain st) = "" ->
  dispatched (snd (run st es)) = [].
Proof.
  induction es as [|e es IH]; intros st U E; [reflexivity|].
  cbn [forallb] in U. apply andb_true_iff in U as [Ue U].
  destruct (step_uncalled st e Ue E) as [E' D].
  rewrite run_cons. cbn [snd]. rewrite dispatched_app, D.
  now apply IH.
Qed.

End Quiet.

(** X15.  [startAnalysis] cancels nothing: every timer pending before the
    call is pending after it.  Hence after two calls in a row a
    [stopAnalysis], which clears the timers the refs hold, leaves the
    recurring timer of the first call pending although monitoring is
    off. *)
Theorem X15_second_start_orphans_timers :
  forall (lang : string) (es : list Hook.Event) (t1 t2 : string),
    let st0 := fst (Hook.run (Hook.initial lang) es) in
    let st :=
      fst (Hook.run st0
             [Hook.StartAnalysis t1; Hook.StartAnalysis t2;
              Hook.StopAnalysis]) in
    (forall t tm,
        In tm (Hook.timers st0) ->
        In tm (Hook.timers (fst (Hook.startAnalysis t st0))))
    /\ Hook.isAnalyzing st = false
    /\ Hook.find_timer (S (Hook.next_id st0)) st
       = Some (Hook.mkTimer (S (Hook.next_id st0)) Hook.Interval
                 (Hook.language st0)).
Proof.
  intros lang es t1 t2 st0 st.
  assert (tidy st0) as T0 by (apply tidy_run, tidy_initial).
  assert (tidy st) as T by (apply tidy_run, T0).
  clearbody st0.
  assert (st = fst (Hook.stopAnalysis
                      (fst (Hook.startAnalysis t2
                              (fst (Hook.startAnalysis t1 st0)))))) as Es.
  { subst st. rewrite !run_cons. reflexivity. }
  clearbody st.
  split; [|split].
  - intros t tm H. cbn [Hook.startAnalysis Hook.schedule fst Hook.timers].
    apply in_or_app. left. apply in_or_app. now left.
  - rewrite Es. unfold Hook.stopAnalysis. cbv zeta.
    destruct (15 <=? _)%nat; reflexivity.
  - assert (Hook.timers st
            = Hook.clear (Some (S (S (S (Hook.next_id st0)))))
                (Hook.clear (Some (S (S (Hook.next_id st0))))
                   (Hook.clear (Hook.debounceRef st0)
                      ((((Hook.timers st0
                          ++ [Hook.mkTimer (Hook.next_id st0)
                                Hook.FirstCheck (Hook.language st0)])
                         ++ [Hook.mkTimer (S (Hook.next_id st0))
                               Hook.Interval (Hook.language st0)])
                        ++ [Hook.mkTimer (S (S (Hook.next_id st0)))
                              Hook.FirstCheck (Hook.language st0)])
                       ++ [Hook.mkTimer (S (S (S (Hook.next_id st0))))
                             Hook.Interval (Hook.language st0)])%list)))
      as Et.
    { rewrite Es. unfold Hook.stopAnalysis. cbv zeta.
      destruct (15 <=? _)%nat; reflexivity. }
    apply (find_timer_held st
             (Hook.mkTimer (S (Hook.next_id st0)) Hook.Interval
                (Hook.language st0)) (ids_distinct st T)).
    rewrite Et.
    apply clear_In. split; [|simpl; intros E; inversion E; lia].
    apply clear_In. split; [|simpl; intros E; inversion E; lia].
    apply clear_In. split.
    + apply in_or_app; left. apply in_or_app; left.
      apply in_or_app; right. now left.
    + simpl. intros E. pose proof (debounce_fresh st0 T0 _ E). lia.
Qed.

(** X16.  [stopAnalysis] runs its final pass exactly when the transcript
    has at least 15 code units, whether or not that text was analysed
    before; it leaves none of the timers the three refs held pending; and
    from then on, for as long as the application calls none of
    [startAnalysis], [updateTranscript], [stopAnalysis] and
    [analyzeTranscript], nothing is dispatched: no timer callback, an
    orphaned one included, finds anything to analyse, the transcript being
    empty once the task is over. *)
Theorem X16_stop_is_final :
  forall st : Hook.State,
    Hook.dispatched (snd (Hook.stopAnalysis st))
    = (if (15 <=? String.length (Hook.transcriptRef st))%nat
       then [Hook.transcriptRef st] else [])
    /\ (forall i,
           Hook.intervalRef st = Some i
           \/ Hook.firstCheckTimeoutRef st = Some i
           \/ Hook.debounceRef st = Some i ->
           Hook.find_timer i (fst (Hook.stopAnalysis st)) = None)
    /\ Hook.transcriptRef (Hook.drain (fst (Hook.stopAnalysis st))) = ""
    /\ Hook.lastAnalyzedLengthRef (Hook.drain (fst (Hook.stopAnalysis st)))
       = 0%nat
    /\ (forall es,
           forallb uncalled es = true ->
           Hook.dispatched
             (snd (Hook.run (fst (Hook.stopAnalysis st)) es)) = []).
Proof.
  intros st.
  assert (Hook.transcriptRef (Hook.drain (fst (Hook.stopAnalysis st))) = ""
          /\ Hook.lastAnalyzedLengthRef
               (Hook.drain (fst (Hook.stopAnalysis st))) = 0%nat) as [E1 E2].
  { unfold Hook.stopAnalysis. cbv zeta.
    destruct (15 <=? _)%nat; split; reflexivity. }
  split; [|split; [|split; [|split]]]; try assumption.
  - unfold Hook.stopAnalysis. cbv zeta.
    destruct (15 <=? _)%nat; reflexivity.
  - intros i H. apply find_timer_gone.
    assert (Hook.timers (fst (Hook.stopAnalysis st))
            = Hook.clear (Hook.intervalRef st)
                (Hook.clear (Hook.firstCheckTimeoutRef st)
                   (Hook.clear (Hook.debounceRef st) (Hook.timers st))))
      as ->.
    { unfold Hook.stopAnalysis. cbv zeta.
      destruct (15 <=? _)%nat; reflexivity. }
    intros t Ht E.
    apply clear_In in Ht as [Ht N1]. apply clear_In in Ht as [Ht N2].
    apply clear_In in Ht as [_ N3].
    destruct H as [H|[H|H]]; congruence.
  - intros es U. now apply run_uncalled.
Qed.

(** X16 at work: monitoring is started twice, the transcript grows and
    monitoring is stopped.  The recurring timer of the first start (timer
    1) is still pending; when the task is over it and the warm-up timer
    of the first start run, and dispatch nothing. *)
Lemma X16_stop_is_final_witness :
  Hook.dispatched
    (snd (Hook.run
            (fst (Hook.stopAnalysis
                    (fst (Hook.run (Hook.initial "en")
                            [Hook.StartAnalysis ""; Hook.StartAnalysis "";
                             Hook.UpdateTranscript Scenarios.alarming]))))
            [Hook.TaskEnds; Hook.TimerFires 1; Hook.TimerFires 0])) = []
  /\ option_map Hook.kind
       (Hook.find_timer 1
          (fst (Hook.stopAnalysis
                  (fst (Hook.run (Hook.initial "en")
                          [Hook.StartAnalysis ""; Hook.StartAnalysis "";
                           Hook.UpdateTranscript Scenarios.alarming])))))
     = Some Hook.Interval.
Proof.
  split.
  - apply (proj2 (proj2 (proj2 (proj2
             (X16_stop_is_final
                (fst (Hook.run (Hook.initial "en")
                        [Hook.StartAnalysis ""; Hook.StartAnalysis "";
                         Hook.UpdateTranscript Scenarios.alarming]))))))
             [Hook.TaskEnds; Hook.TimerFires 1; Hook.TimerFires 0]).
    reflexivity.
  - vm_compute. reflexivity.
Defined.

(** X17.  Once a timer callback has dispatched the transcript, no timer
    callback dispatches again for as long as the transcript stays the
    same: neither the next tick nor a pending debounce repeats the
    analysis. *)
Theorem X17_no_second_dispatch_without_growth :
  forall (st : Hook.State) (i j : nat) (t : string),
    In t (Hook.dispatched (snd (Hook.fire i st))) ->
    Hook.dispatched (snd (Hook.fire j (fst (Hook.fire i st)))) = [].
Proof.
  intros st i j t H.
  destruct (fire_dispatching i st t H) as (R & Et & El).
  apply fire_quiet. rewrite (drain_idle _ R), Et, El. lia.
Qed.

(** X17 at work: after the recurring check has dispatched the sixteen
    code units, the debounce armed when they arrived expires without a
    dispatch. *)
Lemma X17_no_second_dispatch_witness :
  Hook.dispatched
    (snd (Hook.fire 3 (fst (Hook.fire 1 Scenarios.at_sixteen)))) = [].
Proof.
  apply (X17_no_second_dispatch_without_growth Scenarios.at_sixteen 1 3
           Scenarios.sixteen).
  vm_compute. now left.
Defined.

(* ================================================================== *)
(** ** From the recogniser to the score *)
(* ================================================================== *)

Section Recognition.

Import Recorder.

Lemma collect_final rs :
  forall interim final,
    snd (collect rs interim final)
    = final
      ++ fold_right (fun r acc => heard r ++ " " ++ acc) ""
           (filter isFinal rs).
Proof.
  induction rs as [|r rs IH]; intros interim final; simpl.
  - now rewrite append_nil_r.
  - destruct (isFinal r); rewrite IH; simpl; [|reflexivity].
    now rewrite !append_assoc.
Qed.

Lemma onresult_appends ev prev :
  onresult ev prev
  = prev
    ++ fold_right (fun r acc => heard r ++ " " ++ acc) ""
         (filter isFinal (skipn (resultIndex ev) (results ev))).
Proof.
  unfold onresult.
  pose proof (collect_final (skipn (resultIndex ev) (results ev)) "" "") as H.
  destruct (collect (skipn (resultIndex ev) (results ev)) "" "") as [i f].
  simpl in H. now rewrite H.
Qed.

Lemma heard_after_appends evs :
  forall prev, exists added, heard_after evs prev = prev ++ added.
Proof.
  unfold heard_after.
  induction evs as [|ev evs IH]; intros prev; simpl.
  - exists "". now rewrite append_nil_r.
  - destruct (IH (onresult ev prev)) as [added ->].
    rewrite onresult_appends, append_assoc. eexists; reflexivity.
Qed.

End Recognition.

(** X18.  The recogniser's callback only appends: the new transcript is
    the previous one followed by the final results of the event from
    [resultIndex] on, in order, each followed by a space.  Interim
    results, and results before [resultIndex], leave no trace. *)
Theorem X18_recognition_only_appends :
  forall (ev : Recorder.ResultEvent) (prev : string),
    Recorder.onresult ev prev
    = prev
      ++ fold_right
           (fun r acc => Recorder.heard r ++ " " ++ acc) ""
           (filter Recorder.isFinal
              (skipn (Recorder.resultIndex ev) (Recorder.results ev))).
Proof.
  exact onresult_appends.
Qed.

(** X19.  While a call is transcribed the rule-based assessment only
    hardens: whatever result events arrive, every id flagged for the
    transcript so far stays flagged for the transcript after them, and
    neither the raw score nor the final score of the client scorer goes
    down. *)
Theorem X19_transcription_never_lowers_score :
  forall (evs : list Recorder.ResultEvent) (prev language : string),
    let later := Recorder.heard_after evs prev in
    (forall i,
        In i (Hook.detected_ids (Hook.ruleBasedScamAnalysis prev language)) ->
        In i (Hook.detected_ids (Hook.ruleBasedScamAnalysis later language)))
    /\ Hook.rawScore prev <= Hook.rawScore later
    /\ Hook.riskScore (Hook.ruleBasedScamAnalysis prev language)
       <= Hook.riskScore (Hook.ruleBasedScamAnalysis later language).
Proof.
  intros evs prev language later. subst later.
  destruct (heard_after_appends evs prev) as [added ->].
  pose proof (covers_extension prev added) as C.
  assert (Hook.rawScore prev <= Hook.rawScore (prev ++ added)) as R.
  { rewrite !hook_rawScore_closed. apply total_le.
    intros p Hp. now apply hook_contribution_covers. }
  split; [|split].
  - intros i. rewrite !hook_detected_ids_closed.
    now apply hook_detected_covers.
  - exact R.
  - rewrite !hook_score_final. now apply final_score_monotone.
Qed.

(** X19 at work: "share your otp" is final, then an interim guess and a
    final greeting arrive; otp_request stays flagged. *)
Lemma X19_transcription_witness :
  In (Some "otp_request")
     (Hook.detected_ids
        (Hook.ruleBasedScamAnalysis
           (Recorder.heard_after
              [Recorder.mkEvent 0
                 [Recorder.mkSpeech "thank" false];
               Recorder.mkEvent 0
                 [Recorder.mkSpeech "thank you" true]]
              "share your otp ")
           "en")).
Proof.
  apply (proj1 (X19_transcription_never_lowers_score
                  [Recorder.mkEvent 0 [Recorder.mkSpeech "thank" false];
                   Recorder.mkEvent 0 [Recorder.mkSpeech "thank you" true]]
                  "share your otp " "en")).
  vm_compute. now left.
Defined.

(* ================================================================== *)
(** ** The handlers of the view *)
(* ================================================================== *)

Section Trimmed.

Import JS.

Lemma trimEnd_cons c s :
  trimEnd (String c s)
  = match trimEnd s with
    | EmptyString => if is_ws c then EmptyString else String c EmptyString
    | r => String c r
    end.
Proof. reflexivity. Qed.

Lemma trimEnd_idempotent s : trimEnd (trimEnd s) = trimEnd s.
Proof.
  induction s as [|c s IH]; [reflexivity|].
  rewrite trimEnd_cons. destruct (trimEnd s) as [|d r] eqn:E.
  - destruct (is_ws c) eqn:W; [reflexivity|].
    rewrite trimEnd_cons. cbn [trimEnd]. now rewrite W.
  - rewrite trimEnd_cons, IH. reflexivity.
Qed.

Lemma trimStart_head s :
  trimStart s = ""
  \/ exists c r, trimStart s = String c r /\ is_ws c = false.
Proof.
  induction s as [|c s IH]; [now left|].
  cbn [trimStart]. destruct (is_ws c) eqn:W; [exact IH|].
  right. now exists c, s.
Qed.

Lemma trimEnd_head c r :
  is_ws c = false -> exists r', trimEnd (String c r) = String c r'.
Proof.
  intros W. rewrite trimEnd_cons. destruct (trimEnd r).
  - rewrite W. now exists "".
  - eexists; reflexivity.
Qed.

Lemma trim_idempotent s : trim (trim s) = trim s.
Proof.
  unfold trim.
  destruct (trimStart_head s) as [->|(c & r & -> & W)]; [reflexivity|].
  destruct (trimEnd_head c r W) as [r' E]. rewrite E.
  cbn [trimStart]. rewrite W, <- E. apply trimEnd_idempotent.
Qed.

End Trimmed.

Section View.

Import Hook Monitor.

Lemma find_timer_new st ts k lang :
  (forall t, In t ts -> (timer_id t < next_id st)%nat) ->
  List.find (fun t => (timer_id t =? next_id st)%nat)
    (ts ++ [mkTimer (next_id st) k lang])
  = Some (mkTimer (next_id st) k lang).
Proof.
  induction ts as [|u ts IH]; simpl; intros F.
  - now rewrite Nat.eqb_refl.
  - destruct (Nat.eqb_spec (timer_id u) (next_id st)) as [E|_].
    + specialize (F u (or_introl eq_refl)). lia.
    + apply IH. intros t Ht. apply F. now right.
Qed.

End View.

(** X20.  Quick Analyze does nothing for a text of fewer than 10 code
    units once trimmed.  For a longer one it publishes the analysis of the
    trimmed text at once, leaves the last-analysed length as it was and
    arms the debounce; so, unless that length already exceeds the text, the
    expiry of the debounce dispatches the same text a second time. *)
Theorem X20_quick_analyze_runs_twice :
  forall (quickText : string) (st : Hook.State),
    tidy st ->
    Hook.reset_queued st = false ->
    let text := JS.trim quickText in
    let st1 := fst (Monitor.quickAnalyze quickText st) in
    ((String.length text < 10)%nat ->
     Monitor.quickAnalyze quickText st = (st, []))
    /\ ((10 <= String.length text)%nat ->
        Hook.dispatched (snd (Monitor.quickAnalyze quickText st)) = [text]
        /\ Hook.analysis st1
           = Some (Hook.ruleBasedScamAnalysis text (Hook.language st))
        /\ Hook.lastAnalyzedLengthRef st1 = Hook.lastAnalyzedLengthRef st
        /\ Hook.debounceRef st1 = Some (Hook.next_id st)
        /\ ((Hook.lastAnalyzedLengthRef st < String.length text)%nat ->
            Hook.dispatched (snd (Hook.fire (Hook.next_id st) st1))
            = [text])).
Proof.
  intros quickText st T R text st1. subst st1.
  unfold Monitor.quickAnalyze. fold text. split.
  - intros L. apply Nat.leb_gt in L. now rewrite L.
  - intros L. pose proof L as Lb. apply Nat.leb_le in Lb. rewrite Lb.
    assert (JS.trim text = text) as Et by apply trim_idempotent.
    assert (Monitor.handleManualAnalyze text st
            = (Hook.mkState (Hook.isAnalyzing st)
                 (Some (Hook.ruleBasedScamAnalysis text (Hook.language st)))
                 (Hook.intervalRef st) (Hook.firstCheckTimeoutRef st)
                 (Some (Hook.next_id st)) text
                 (Hook.lastAnalyzedLengthRef st) (Hook.language st)
                 (Hook.clear (Hook.debounceRef st) (Hook.timers st)
                  ++ [Hook.mkTimer (Hook.next_id st) Hook.Debounce
                        (Hook.language st)])
                 (S (Hook.next_id st)) (Hook.reset_queued st),
               [Hook.Dispatched text;
                Hook.Published
                  (Hook.ruleBasedScamAnalysis text (Hook.language st))]))
      as ->.
    { unfold Monitor.handleManualAnalyze, Hook.updateTranscript. cbv zeta.
      rewrite Et, Lb. reflexivity. }
    cbn [fst snd Hook.analysis Hook.lastAnalyzedLengthRef Hook.debounceRef].
    repeat split.
    intros New. unfold Hook.fire. cbv zeta.
    rewrite drain_idle by exact R.
    unfold Hook.find_timer. cbn [Hook.timers].
    rewrite (find_timer_new st
               (Hook.clear (Hook.debounceRef st) (Hook.timers st))
               Hook.Debounce (Hook.language st)).
    + cbn [Hook.kind Hook.one_shot Hook.captured].
      unfold Hook.debounceFires. cbv zeta.
      cbn [Hook.transcriptRef Hook.lastAnalyzedLengthRef Hook.set_timers].
      apply Nat.ltb_lt in New. rewrite New. reflexivity.
    + intros t Ht. apply clear_In in Ht as [Ht _].
      now apply (ids_fresh st T).
Qed.

(** X20 at work: Quick Analyze on a hook that was never started. *)
Lemma X20_quick_analyze_witness :
  Hook.dispatched
    (snd (Hook.fire 0
            (fst (Monitor.quickAnalyze "  Share your OTP now  "
                    (Hook.initial "en")))))
  = ["Share your OTP now"].
Proof.
  refine (proj2 (proj2 (proj2 (proj2
            (proj2 (X20_quick_analyze_runs_twice "  Share your OTP now  "
                      (Hook.initial "en") (tidy_initial "en") eq_refl)
               _)))) _).
  - vm_compute. lia.
  - vm_compute. lia.
Defined.

(** X21.  The upload handler saves no record for a text of fewer than 10
    code units once trimmed.  Otherwise the record it saves has a duration
    of 60 seconds, a score from 0 to 100 that is at least 75 when the level
    is high, and no indicator that is not flagged. *)
Theorem X21_uploaded_record :
  forall (uploadTranscriptText : string) (st : Hook.State),
    let text := JS.trim uploadTranscriptText in
    let saved :=
      snd (Monitor.handleUploadTranscriptAnalyze uploadTranscriptText st) in
    ((String.length text < 10)%nat -> saved = None)
    /\ ((10 <= String.length text)%nat ->
        exists r,
          saved = Some r
          /\ Monitor.duration r = 60
          /\ 0 <= Monitor.call_riskScore r <= 100
          /\ (Monitor.call_riskLevel r = Hook.high ->
              75 <= Monitor.call_riskScore r)
          /\ Forall (fun i => Hook.detected i = true)
               (Monitor.call_indicators r)).
Proof.
  intros uploadTranscriptText st text saved. subst saved.
  unfold Monitor.handleUploadTranscriptAnalyze. fold text. cbv zeta. split.
  - intros L. apply Nat.ltb_lt in L. now rewrite L.
  - intros L. apply Nat.ltb_ge in L. rewrite L.
    eexists. split; [reflexivity|].
    cbn [Monitor.duration Monitor.call_riskScore Monitor.call_riskLevel
         Monitor.call_indicators].
    split; [reflexivity|]. split; [apply hook_score_range|].
    split; [apply hook_floor|].
    apply Forall_forall. intros i Hi. now apply filter_In in Hi.
Qed.

(* ================================================================== *)
(** ** The duration shown in the call history *)
(* ================================================================== *)

Section Durations.
Import History.

Lemma read_decimal n : read (decimal n) = Some n.
Proof.
  unfold read, decimal. rewrite NilZero.usu.
  - cbn [option_map]. f_equal. apply DecimalNat.Unsigned.of_to.
  - intros E. pose proof (DecimalNat.Unsigned.of_to n) as H.
    rewrite E in H. cbn in H. subst n. discriminate E.
Qed.

Lemma seconds_field_below n :
  (n < 60)%nat ->
  String.length (padStart (decimal n) 2 "0") = 2%nat
  /\ read (padStart (decimal n) 2 "0") = Some n.
Proof.
  intros L.
  assert (forallb
            (fun k =>
               (String.length (padStart (decimal k) 2 "0") =? 2)%nat
               && match read (padStart (decimal k) 2 "0") with
                  | Some m => (m =? k)%nat
                  | None => false
                  end)
            (seq 0 60) = true) as A by (vm_compute; reflexivity).
  rewrite forallb_forall in A.
  specialize (A n). rewrite in_seq in A.
  specialize (A (conj (Nat.le_0_l n) L)).
  apply andb_prop in A as [B1 B2].
  apply Nat.eqb_eq in B1. split; [exact B1|].
  destruct (read (padStart (decimal n) 2 "0")) as [m|]; [|discriminate].
  apply Nat.eqb_eq in B2. now subst m.
Qed.

(** X22.  The duration display is a minutes field, a colon, a seconds
    field of exactly two characters and the unit; read back as decimal
    numbers the fields give the duration: 60 * minutes + seconds, with
    seconds below 60. *)
Theorem X22_duration_reads_back :
  forall duration : nat,
    exists minutes seconds : string,
      History.duration_text duration = minutes ++ ":" ++ seconds ++ " min"
      /\ String.length seconds = 2%nat
      /\ exists m s : nat,
           History.read minutes = Some m
           /\ History.read seconds = Some s
           /\ (s < 60)%nat
           /\ duration = (60 * m + s)%nat.
Proof.
  intros duration.
  assert (duration mod 60 < 60)%nat as L by (apply Nat.mod_upper_bound; lia).
  destruct (seconds_field_below _ L) as [S2 RS].
  exists (decimal (duration / 60)),
         (padStart (decimal (duration mod 60)) 2 "0").
  split; [reflexivity|]. split; [exact S2|].
  exists (duration / 60)%nat, (duration mod 60)%nat.
  split; [apply read_decimal|]. split; [exact RS|]. split; [exact L|].
  apply Nat.div_mod_eq.
Qed.

End Durations.
